(** * Image duplicate checker: a shallow embedding and its properties

    The repository holds two variants of one VS Code command,
    [image-dup-checker.checkDuplicates]:

    - [src/src/extension.ts]: the configured [searchPaths] are literal
      sub-directories of the workspace root, each walked recursively
      (module [Extension] below);
    - [src/unnamed/part_000]: the configured [searchPaths] are glob patterns
      handed to [vscode.workspace.findFiles]; an empty list falls back to the
      recursive walk of the workspace root (module [Part000] below).

    Both share [calculateMD5], the recursive [scanDirectory],
    [findDuplicates] and [showDuplicatesQuickPick].

    Everything the command observes of its host (file system, configuration,
    workspace folders, [findFiles]) is gathered in the record [Host]; every
    call that touches the host is logged as an [event], so that statements
    about the order of the steps can be made on the log. *)

From Stdlib Require Import List String Ascii Bool Arith ZArith Lia Permutation.
From Stdlib Require Import Strings.Byte.
Import ListNotations.

Local Open Scope string_scope.
Local Open Scope list_scope.

(* ================================================================== *)
(** ** Strings and paths *)

(** [String.prototype.toLowerCase], on the ASCII letters (a string is a
    sequence of bytes here; bytes outside A-Z are left alone). *)
Definition lower_ascii (c : ascii) : ascii :=
  let n := nat_of_ascii c in
  if ((65 <=? n)%nat && (n <=? 90)%nat)%bool then ascii_of_nat (n + 32) else c.

Fixpoint toLowerCase (s : string) : string :=
  match s with
  | EmptyString => EmptyString
  | String c r => String (lower_ascii c) (toLowerCase r)
  end.

(** [s.startsWith('.')] *)
Definition startsWithDot (s : string) : bool :=
  match s with
  | String "."%char _ => true
  | _ => false
  end.

(** [Array.prototype.includes] on strings. *)
Definition includes (x : string) (l : list string) : bool :=
  existsb (String.eqb x) l.

(** A path is kept as the sequence of its segments, the way [path.join],
    [path.relative] and [path.extname] see a normalised POSIX path:
    ["/ws/img/a.png"] is [["ws"; "img"; "a.png"]]. Two normalised paths are
    the same string exactly when they have the same segments, so [===] on
    paths is equality of segment lists. *)
Definition path := list string.

Definition path_eqb (p q : path) : bool :=
  if list_eq_dec string_dec p q then true else false.

(** [path.basename] *)
Definition basename (p : path) : string := last p "".

(** The suffix of [s] that starts at its last dot, if it has a dot. *)
Fixpoint last_dot (s : string) : option string :=
  match s with
  | EmptyString => None
  | String c r =>
      match last_dot r with
      | Some e => Some e
      | None => if Ascii.eqb c "." then Some s else None
      end
  end.

(** [path.extname] on a file name: everything from the last dot on; empty
    when there is no dot, when the only dot is the first character, and for
    the name [".."]. *)
Definition extname (name : string) : string :=
  match name with
  | EmptyString => ""
  | String _ r =>
      if String.eqb name ".." then ""
      else match last_dot r with
           | Some e => e
           | None => ""
           end
  end.

(** [path.extname] on a whole path looks at its last segment only. *)
Definition extname_path (p : path) : string := extname (basename p).

(** Splitting a configured string at its slashes. *)
Fixpoint segments (s : string) : list string :=
  match s with
  | EmptyString => [EmptyString]
  | String c r =>
      if Ascii.eqb c "/" then EmptyString :: segments r
      else match segments r with
           | [] => [String c EmptyString]
           | x :: xs => String c x :: xs
           end
  end.

(** Normalisation as [path.join] does it: empty and ["."] segments vanish,
    [".."] drops the segment before it ([stack] is the path so far, last
    segment first). *)
Definition normalize_step (stack : list string) (seg : string) : list string :=
  if String.eqb seg "" || String.eqb seg "." then stack
  else if String.eqb seg ".." then tl stack
  else seg :: stack.

(** [path.join(base, p)] for a normalised absolute [base]. *)
Definition path_join (base : path) (p : string) : path :=
  rev (fold_left normalize_step (segments p) (rev base)).

(** [path.join(dirPath, entry.name)] for a name returned by [readdir]. *)
Definition join_entry (dirPath : path) (name : string) : path :=
  dirPath ++ [name].

(** [path.relative(from, to)]: drop the common prefix, climb out of what is
    left of [from]. *)
Fixpoint relative (from to : path) : path :=
  match from, to with
  | f :: fr, t :: tr =>
      if String.eqb f t then relative fr tr
      else repeat ".." (List.length from) ++ to
  | _, _ => repeat ".." (List.length from) ++ to
  end.

(* ================================================================== *)
(** ** The digest: MD5 (RFC 1321) on 32-bit words kept in [Z]

    [crypto.createHash('md5')] is Node's; the digest is modelled from
    RFC 1321 so that fingerprints can be computed. *)

Module MD5.
Local Open Scope Z_scope.

Definition mask32 : Z := 4294967295.
Definition wrap (x : Z) : Z := Z.land x mask32.
Definition add32 (x y : Z) : Z := wrap (x + y).
Definition not32 (x : Z) : Z := Z.lxor x mask32.
Definition rotl32 (x : Z) (s : Z) : Z :=
  wrap (Z.lor (Z.shiftl x s) (Z.shiftr x (32 - s))).

Definition K : list Z :=
  [ 3614090360; 3905402710; 606105819; 3250441966;
    4118548399; 1200080426; 2821735955; 4249261313;
    1770035416; 2336552879; 4294925233; 2304563134;
    1804603682; 4254626195; 2792965006; 1236535329;
    4129170786; 3225465664; 643717713; 3921069994;
    3593408605; 38016083; 3634488961; 3889429448;
    568446438; 3275163606; 4107603335; 1163531501;
    2850285829; 4243563512; 1735328473; 2368359562;
    4294588738; 2272392833; 1839030562; 4259657740;
    2763975236; 1272893353; 4139469664; 3200236656;
    681279174; 3936430074; 3572445317; 76029189;
    3654602809; 3873151461; 530742520; 3299628645;
    4096336452; 1126891415; 2878612391; 4237533241;
    1700485571; 2399980690; 4293915773; 2240044497;
    1873313359; 4264355552; 2734768916; 1309151649;
    4149444226; 3174756917; 718787259; 3951481745 ].

Definition S : list Z :=
  [ 7; 12; 17; 22; 7; 12; 17; 22; 7; 12; 17; 22; 7; 12; 17; 22;
    5; 9; 14; 20; 5; 9; 14; 20; 5; 9; 14; 20; 5; 9; 14; 20;
    4; 11; 16; 23; 4; 11; 16; 23; 4; 11; 16; 23; 4; 11; 16; 23;
    6; 10; 15; 21; 6; 10; 15; 21; 6; 10; 15; 21; 6; 10; 15; 21 ].

(** The chaining value. *)
Record state := mkState { sA : Z; sB : Z; sC : Z; sD : Z }.

Definition init : state :=
  mkState 1732584193 4023233417 2562383102 271733878.

(** One of the 64 steps on the 16 words [m] of a block. *)
Definition step (m : list Z) (st : state) (i : nat) : state :=
  let '(mkState a b c d) := st in
  let '(f, g) :=
    if (i <? 16)%nat then
      (Z.lor (Z.land b c) (Z.land (not32 b) d), i)
    else if (i <? 32)%nat then
      (Z.lor (Z.land d b) (Z.land (not32 d) c), ((5 * i + 1) mod 16)%nat)
    else if (i <? 48)%nat then
      (Z.lxor (Z.lxor b c) d, ((3 * i + 5) mod 16)%nat)
    else
      (Z.lxor c (Z.lor b (not32 d)), ((7 * i) mod 16)%nat) in
  let f' := add32 (add32 (add32 f a) (nth i K 0)) (nth g m 0) in
  mkState d (add32 b (rotl32 f' (nth i S 0))) b c.

(** Four bytes, least significant first, to a word. *)
Definition word_of_bytes (bs : list Z) : Z :=
  fold_right (fun b acc => b + 256 * acc) 0 bs.

Fixpoint words_of_block (n : nat) (bs : list Z) : list Z :=
  match n with
  | O => []
  | Datatypes.S n' => word_of_bytes (firstn 4 bs) :: words_of_block n' (skipn 4 bs)
  end.

Definition compress (st : state) (block : list Z) : state :=
  let m := words_of_block 16 block in
  let st' := fold_left (step m) (seq 0 64) st in
  mkState (add32 (sA st) (sA st')) (add32 (sB st) (sB st'))
          (add32 (sC st) (sC st')) (add32 (sD st) (sD st')).

(** [n] bytes of [x], least significant first. *)
Fixpoint bytes_le (n : nat) (x : Z) : list Z :=
  match n with
  | O => []
  | Datatypes.S n' => Z.land x 255 :: bytes_le n' (Z.shiftr x 8)
  end.

(** Padding: a one bit, zeros up to 56 modulo 64, the bit length on 8 bytes. *)
Definition pad (msg : list Z) : list Z :=
  let len := List.length msg in
  let zeros := ((55 + 64 - len mod 64) mod 64)%nat in
  msg ++ [128] ++ repeat 0 zeros ++ bytes_le 8 (8 * Z.of_nat len).

Definition blocks (bs : list Z) : list (list Z) :=
  map (fun i => firstn 64 (skipn (64 * i) bs)) (seq 0 (List.length bs / 64)).

Definition digest_state (msg : list Z) : state :=
  fold_left compress (blocks (pad msg)) init.

(** The 16 bytes of the digest. *)
Definition digest_bytes (msg : list Z) : list Z :=
  let st := digest_state msg in
  bytes_le 4 (sA st) ++ bytes_le 4 (sB st) ++ bytes_le 4 (sC st) ++ bytes_le 4 (sD st).

Definition hex_digit (n : Z) : ascii :=
  nth (Z.to_nat (Z.land n 15))
      ["0"; "1"; "2"; "3"; "4"; "5"; "6"; "7"; "8"; "9"; "a"; "b"; "c"; "d"; "e"; "f"]%char
      "0"%char.

Fixpoint hex (bs : list Z) : string :=
  match bs with
  | [] => EmptyString
  | b :: r => String (hex_digit (Z.shiftr b 4)) (String (hex_digit b) (hex r))
  end.

Definition hexdigest (content : list byte) : string :=
  hex (digest_bytes (map (fun b => Z.of_N (Byte.to_N b)) content)).

End MD5.

Arguments MD5.hexdigest : simpl never.

(** The digits a hex digest is written with. *)
Definition is_hex_digit (c : ascii) : bool :=
  let n := nat_of_ascii c in
  (((48 <=? n)%nat && (n <=? 57)%nat) || ((97 <=? n)%nat && (n <=? 102)%nat))%bool.

(* ================================================================== *)
(** ** The host: file system, configuration, workspace *)

(** What sits at a path. [File chunks ok]: a regular file whose read stream
    emits [chunks] in order and then ['end'] ([ok = true]) or ['error']
    ([ok = false]: permission, I/O error, deletion under way).
    [Dir entries ok]: a directory; [readdir] resolves to [entries] when
    [ok], rejects otherwise. [Other]: anything that is neither (symbolic
    link, socket, device), for which both [isDirectory()] and [isFile()]
    answer false. Directories are not followed through links, so what a walk
    can reach is a finite tree. *)
#[local] Unset Elimination Schemes.
Inductive node : Type :=
| File (chunks : list (list byte)) (ok : bool)
| Dir (entries : list (string * node)) (ok : bool)
| Other.
#[local] Set Elimination Schemes.

(** The bytes of a file: its chunks, one after the other. *)
Definition content (chunks : list (list byte)) : list byte := List.concat chunks.

(** The entry called [name] among [entries]. *)
Fixpoint find_entry (name : string) (entries : list (string * node)) : option node :=
  match entries with
  | [] => None
  | (n, c) :: rest => if String.eqb n name then Some c else find_entry name rest
  end.

(** The node at path [p] below [n], if there is one. *)
Fixpoint lookup (n : node) (p : path) : option node :=
  match p with
  | [] => Some n
  | s :: q =>
      match n with
      | Dir entries _ =>
          match find_entry s entries with
          | Some c => lookup c q
          | None => None
          end
      | _ => None
      end
  end.

(** What a system call on [p] finds; a missing path fails every read the way
    a node that is neither file nor directory does. *)
Definition node_at (root : node) (p : path) : node :=
  match lookup root p with
  | Some n => n
  | None => Other
  end.

Record Host := mkHost {
  fs : node;                                  (* the tree at the root *)
  activeTextEditor : option path;             (* its document's uri.fsPath *)
  workspaceFolders : list path;               (* undefined counts as empty *)
  cfg_imageExtensions : option (list string); (* config.get('imageExtensions') *)
  cfg_searchPaths : option (list string);     (* config.get('searchPaths') *)
  findFiles : string -> string -> option (list path)
    (* vscode.workspace.findFiles(include, exclude); None: it rejects *)
}.

Definition defaultImageExtensions : list string :=
  [".png"; ".jpg"; ".jpeg"; ".gif"; ".bmp"; ".webp"].

(** [config.get<string[]>('imageExtensions') || [...]] *)
Definition imageExtensions (h : Host) : list string :=
  match cfg_imageExtensions h with
  | Some l => l
  | None => defaultImageExtensions
  end.

(** [config.get<string[]>('searchPaths') || []] *)
Definition searchPaths (h : Host) : list string :=
  match cfg_searchPaths h with
  | Some l => l
  | None => []
  end.

(** [extensions.map(ext => ext.toLowerCase())] *)
Definition normalizedExtensions (extensions : list string) : list string :=
  map toLowerCase extensions.

(* ================================================================== *)
(** ** Records, messages, events *)

Record ImageInfo := mkImageInfo {
  filePath : path;
  md5 : string;
  relativePath : path
}.

(** What is thrown or rejected. *)
Inductive error :=
| ErrRead (p : path)            (* the read stream of [p] emitted 'error' *)
| ErrReaddir (p : path)         (* readdir(p) rejected *)
| ErrFindFiles (pattern : string).

(** [progress.report({ message })] *)
Inductive progress_msg :=
| PScanned (rel : path)         (* the file just hashed *)
| PHashing                      (* part_000, step 1 *)
| PScanning                     (* part_000, step 2 *)
| PMatching.                    (* part_000, step 3 *)

(** [console.error] *)
Inductive log_msg :=
| LogMD5Failed (p : path) (e : error)
| LogScanDirFailed (p : path) (e : error)
| LogPatternFailed (pattern : string) (e : error)
| LogCheckFailed (e : error).

(** The calls on the host, in the order they are made. *)
Inductive event :=
| EvExistsSync (p : path)
| EvHash (p : path)              (* calculateMD5(p) opens its stream *)
| EvReaddir (p : path)
| EvFindFiles (incl excl : string)
| EvReport (m : progress_msg)
| EvConsoleError (m : log_msg).

(** The texts of [showErrorMessage]. *)
Inductive error_message :=
| MsgSelectImage                 (* "please select an image file" *)
| MsgNotExist                    (* "the file does not exist" *)
| MsgNoWorkspace                 (* "no workspace is open" *)
| MsgError (e : error).          (* "an error occurred: ..." *)

(** The texts of [showInformationMessage]. *)
Inductive info_message :=
| MsgNoDuplicates                (* "no duplicate image found" *)
| MsgNoOtherDuplicates.          (* "no other duplicate image found" *)

Record QuickPickItemWithPath := mkItem {
  label : string;                (* the base name *)
  detail : path;                 (* the relative path *)
  item_filePath : path
}.

(** How a run of the command ends for the user; the quick pick has one item
    per record of [shown]. *)
Inductive ui :=
| ShowError (m : error_message)
| ShowInfo (m : info_message)
| ShowQuickPick (shown : list ImageInfo).

(* ================================================================== *)
(** ** Effects

    A computation yields the events it caused, the records it pushed on the
    [images] array in scope, and either a value or the error it threw. Both
    logs survive a throw, as the effects of JavaScript code do. *)

Inductive result (A : Type) :=
| Ok (a : A)
| Throw (e : error).
Arguments Ok {A} a.
Arguments Throw {A} e.

Definition M (A : Type) : Type := (list event * list ImageInfo * result A)%type.

Definition ret {A} (a : A) : M A := ([], [], Ok a).

Definition bind {A B} (m : M A) (f : A -> M B) : M B :=
  match m with
  | (t, p, Ok a) => let '(t', p', r) := f a in (t ++ t', p ++ p', r)
  | (t, p, Throw e) => (t, p, Throw e)
  end.

Definition throw {A} (e : error) : M A := ([], [], Throw e).
Definition emit (e : event) : M unit := ([e], [], Ok tt).

(** [images.push(img)] *)
Definition push (img : ImageInfo) : M unit := ([], [img], Ok tt).

(** [images.push(...imgs)] *)
Definition push_all (imgs : list ImageInfo) : M unit := ([], imgs, Ok tt).

(** [try { m } catch (e) { handler e }] *)
Definition try_catch {A} (m : M A) (handler : error -> M A) : M A :=
  match m with
  | (t, p, Ok a) => (t, p, Ok a)
  | (t, p, Throw e) => let '(t', p', r) := handler e in (t ++ t', p ++ p', r)
  end.

(** [const images = []; m; return images]: the array is local to the block,
    and what [m] pushed is the value returned. *)
Definition with_images (m : M unit) : M (list ImageInfo) :=
  match m with
  | (t, p, Ok _) => (t, [], Ok p)
  | (t, p, Throw e) => (t, [], Throw e)
  end.

Declare Scope m_scope.
Delimit Scope m_scope with M.
Notation "x <- m ;; k" := (bind m (fun x => k))
  (at level 61, m at next level, right associativity) : m_scope.
Notation "m ;;; k" := (bind m (fun _ => k))
  (at level 61, right associativity) : m_scope.
Local Open Scope m_scope.

(** [for (const x of l) { body x }] *)
Fixpoint forEach {A} (l : list A) (body : A -> M unit) : M unit :=
  match l with
  | [] => ret tt
  | x :: rest => body x ;;; forEach rest body
  end.

Definition events {A} (m : M A) : list event := fst (fst m).
Definition pushed {A} (m : M A) : list ImageInfo := snd (fst m).
Definition outcome {A} (m : M A) : result A := snd m.

(* ================================================================== *)
(** ** The shared functions *)

(** [fs.existsSync(p)] *)
Definition existsSync (h : Host) (p : path) : M bool :=
  emit (EvExistsSync p) ;;;
  ret (match lookup (fs h) p with Some _ => true | None => false end).

(** The hash object: [update] appends to what was fed, [digest('hex')] is
    the MD5 of all of it. *)
Definition createHash : list byte := [].
Definition hash_update (st chunk : list byte) : list byte := st ++ chunk.
Definition hash_digest_hex (st : list byte) : string := MD5.hexdigest st.

(** [calculateMD5(filePath)], where [n] is what [createReadStream(filePath)]
    opens: every ['data'] chunk is fed to the hash, ['end'] resolves with
    the digest, ['error'] rejects. *)
Definition calculateMD5 (filePath : path) (n : node) : M string :=
  emit (EvHash filePath) ;;;
  match n with
  | File chunks true => ret (hash_digest_hex (fold_left hash_update chunks createHash))
  | _ => throw (ErrRead filePath)
  end.

(** The test that makes [scanDirectory] pass over an entry. *)
Definition skipped (name : string) : bool :=
  String.eqb name "node_modules" || startsWithDot name.

(** [scanDirectory(dirPath)] inside [scanImageFiles] / [scanImageFilesDefault];
    [d] is what [readdir(dirPath)] reads. *)
Fixpoint scanDirectory (normalized : list string) (rootPath dirPath : path)
         (d : node) {struct d} : M unit :=
  try_catch
    (emit (EvReaddir dirPath) ;;;
     match d with
     | Dir entries true =>
         (fix loop (es : list (string * node)) : M unit :=
            match es with
            | [] => ret tt
            | (name, child) :: rest =>
                let fullPath := join_entry dirPath name in
                (if skipped name then ret tt
                 else
                   match child with
                   | Dir _ _ => scanDirectory normalized rootPath fullPath child
                   | File _ _ =>
                       let ext := toLowerCase (extname name) in
                       if includes ext normalized then
                         try_catch
                           (md5 <- calculateMD5 fullPath child ;;
                            let relativePath := relative rootPath fullPath in
                            push (mkImageInfo fullPath md5 relativePath) ;;;
                            emit (EvReport (PScanned relativePath)))
                           (fun error => emit (EvConsoleError (LogMD5Failed fullPath error)))
                       else ret tt
                   | Other => ret tt
                   end) ;;;
                loop rest
            end) entries
     | _ => throw (ErrReaddir dirPath)
     end)
    (fun error => emit (EvConsoleError (LogScanDirFailed dirPath error))).

(** The body of the loop of [scanDirectory], for one entry. *)
Definition scanEntry (normalized : list string) (rootPath dirPath : path)
           (entry : string * node) : M unit :=
  let '(name, child) := entry in
  let fullPath := join_entry dirPath name in
  if skipped name then ret tt
  else
    match child with
    | Dir _ _ => scanDirectory normalized rootPath fullPath child
    | File _ _ =>
        let ext := toLowerCase (extname name) in
        if includes ext normalized then
          try_catch
            (md5 <- calculateMD5 fullPath child ;;
             let relativePath := relative rootPath fullPath in
             push (mkImageInfo fullPath md5 relativePath) ;;;
             emit (EvReport (PScanned relativePath)))
            (fun error => emit (EvConsoleError (LogMD5Failed fullPath error)))
        else ret tt
    | Other => ret tt
    end.

(** [scanImageFiles(rootPath, extensions, progress)] of extension.ts;
    [scanImageFilesDefault(rootPath, progress)] of part_000 is the same
    function with [extensions] read from the configuration. *)
Definition scanImageFiles (h : Host) (rootPath : path) (extensions : list string)
  : M (list ImageInfo) :=
  with_images
    (scanDirectory (normalizedExtensions extensions) rootPath rootPath
                   (node_at (fs h) rootPath)).

(** [findDuplicates(targetMD5, allImages)] *)
Definition findDuplicates (targetMD5 : string) (allImages : list ImageInfo)
  : list ImageInfo :=
  filter (fun img => String.eqb (md5 img) targetMD5) allImages.

(** [duplicates.filter(img => img.filePath !== targetPath)] *)
Definition withoutTarget (targetPath : path) (duplicates : list ImageInfo)
  : list ImageInfo :=
  filter (fun img => negb (path_eqb (filePath img) targetPath)) duplicates.

(** The item built for a record. (part_000 adds a field holding the relative
    path again; its copy button copies that, the one of extension.ts the
    absolute path.) *)
Definition item_of (img : ImageInfo) : QuickPickItemWithPath :=
  mkItem (basename (filePath img)) (relativePath img) (filePath img).

(** [showDuplicatesQuickPick(duplicates, targetPath)]: the list shown holds
    the duplicates other than the target. *)
Definition showDuplicatesQuickPick (duplicates : list ImageInfo) (targetPath : path)
  : M ui :=
  let filteredDuplicates := withoutTarget targetPath duplicates in
  ret (ShowQuickPick filteredDuplicates).

(** [quickPick.items] *)
Definition quickPickItems (u : ui) : list QuickPickItemWithPath :=
  match u with
  | ShowQuickPick shown => map item_of shown
  | _ => []
  end.

(** The argument of the command, or else the document of the active editor. *)
Definition resolveUri (h : Host) (uri : option path) : option path :=
  match uri with
  | Some u => Some u
  | None => activeTextEditor h
  end.

(** The handler's outer [catch]: the error is shown and logged. *)
Definition onError (e : error) : M ui :=
  emit (EvConsoleError (LogCheckFailed e)) ;;; ret (ShowError (MsgError e)).

(** The last part of both handlers: matches, the same without the target,
    and what is shown. *)
Definition resolveDuplicates (targetMD5 : string) (targetPath : path)
           (allImages : list ImageInfo) : M ui :=
  let duplicates := findDuplicates targetMD5 allImages in
  if (List.length duplicates =? 0)%nat then ret (ShowInfo MsgNoDuplicates)
  else
    let otherDuplicates := withoutTarget targetPath duplicates in
    if (List.length otherDuplicates =? 0)%nat then ret (ShowInfo MsgNoOtherDuplicates)
    else showDuplicatesQuickPick duplicates targetPath.

(* ================================================================== *)
(** ** src/src/extension.ts *)

Module Extension.

(** [searchPaths.length > 0 ? searchPaths.map(p => path.join(workspaceRoot, p))
    : [workspaceRoot]] *)
Definition searchRoots (workspaceRoot : path) (searchPaths : list string) : list path :=
  if (0 <? List.length searchPaths)%nat
  then map (fun p => path_join workspaceRoot p) searchPaths
  else [workspaceRoot].

(** The body of the second [withProgress]: every search root that exists is
    scanned, and the records are gathered in one array. *)
Definition scanRoots (h : Host) (roots : list path) (extensions : list string)
  : M (list ImageInfo) :=
  with_images
    (forEach roots (fun searchRoot =>
       ex <- existsSync h searchRoot ;;
       if ex then
         scannedImages <- scanImageFiles h searchRoot extensions ;;
         push_all scannedImages
       else ret tt)).

(** The handler of [image-dup-checker.checkDuplicates]. *)
Definition checkDuplicates (h : Host) (uri : option path) : M ui :=
  try_catch
    (match resolveUri h uri with
     | None => ret (ShowError MsgSelectImage)
     | Some targetPath =>
         ex <- existsSync h targetPath ;;
         if negb ex then ret (ShowError MsgNotExist)
         else
           let imageExtensions := imageExtensions h in
           let ext := toLowerCase (extname_path targetPath) in
           if negb (includes ext imageExtensions) then ret (ShowError MsgSelectImage)
           else
             targetMD5 <- calculateMD5 targetPath (node_at (fs h) targetPath) ;;
             match workspaceFolders h with
             | [] => ret (ShowError MsgNoWorkspace)
             | workspaceRoot :: _ =>
                 let searchRoots := searchRoots workspaceRoot (searchPaths h) in
                 allImages <- scanRoots h searchRoots imageExtensions ;;
                 resolveDuplicates targetMD5 targetPath allImages
             end
     end)
    onError.

End Extension.

(* ================================================================== *)
(** ** src/unnamed/part_000 *)

Module Part000.

Definition nodeModulesExclude : string := "**/node_modules/**".

(** [scanImageFilesDefault(rootPath, progress)] *)
Definition scanImageFilesDefault (h : Host) (rootPath : path) : M (list ImageInfo) :=
  scanImageFiles h rootPath (imageExtensions h).

(** [vscode.workspace.findFiles(pattern, exclude)] *)
Definition findFilesM (h : Host) (pattern exclude : string) : M (list path) :=
  emit (EvFindFiles pattern exclude) ;;;
  match findFiles h pattern exclude with
  | Some files => ret files
  | None => throw (ErrFindFiles pattern)
  end.

(** The body of the loop over the files one pattern resolved to. *)
Definition scanGlobFile (h : Host) (normalized : list string) (workspaceRoot : path)
           (filePath : path) : M unit :=
  let ext := toLowerCase (extname_path filePath) in
  if negb (includes ext normalized) then ret tt
  else
    try_catch
      (md5 <- calculateMD5 filePath (node_at (fs h) filePath) ;;
       let relativePath := relative workspaceRoot filePath in
       push (mkImageInfo filePath md5 relativePath) ;;;
       emit (EvReport (PScanned relativePath)))
      (fun error => emit (EvConsoleError (LogMD5Failed filePath error))).

(** The body of the loop over the patterns. *)
Definition scanGlobPattern (h : Host) (normalized : list string) (workspaceRoot : path)
           (pattern : string) : M unit :=
  try_catch
    (files <- findFilesM h pattern nodeModulesExclude ;;
     forEach files (scanGlobFile h normalized workspaceRoot))
    (fun error => emit (EvConsoleError (LogPatternFailed pattern error))).

(** [scanImageFilesWithGlob(globPatterns, workspaceRoot, progress)] *)
Definition scanImageFilesWithGlob (h : Host) (globPatterns : list string)
           (workspaceRoot : path) : M (list ImageInfo) :=
  if (List.length globPatterns =? 0)%nat then scanImageFilesDefault h workspaceRoot
  else
    let normalized := normalizedExtensions (imageExtensions h) in
    with_images (forEach globPatterns (scanGlobPattern h normalized workspaceRoot)).

(** The handler of [image-dup-checker.checkDuplicates]. *)
Definition checkDuplicates (h : Host) (uri : option path) : M ui :=
  try_catch
    (match resolveUri h uri with
     | None => ret (ShowError MsgSelectImage)
     | Some targetPath =>
         ex <- existsSync h targetPath ;;
         if negb ex then ret (ShowError MsgNotExist)
         else
           let imageExtensions := imageExtensions h in
           let ext := toLowerCase (extname_path targetPath) in
           if negb (includes ext imageExtensions) then ret (ShowError MsgSelectImage)
           else
             match workspaceFolders h with
             | [] => ret (ShowError MsgNoWorkspace)
             | workspaceRoot :: _ =>
                 let searchPatterns := searchPaths h in
                 emit (EvReport PHashing) ;;;
                 targetMD5 <- calculateMD5 targetPath (node_at (fs h) targetPath) ;;
                 emit (EvReport PScanning) ;;;
                 allImages <- scanImageFilesWithGlob h searchPatterns workspaceRoot ;;
                 emit (EvReport PMatching) ;;;
                 resolveDuplicates targetMD5 targetPath allImages
             end
     end)
    onError.

End Part000.

(* ================================================================== *)
(** ** The outcome of a scan, in the words of the specification *)

Inductive fatal := FileNotFound | NotAnImage | NoWorkspace | IOError.

Inductive Outcome :=
| NoneFound
| OnlySelfFound
| DuplicatesFound (others : list ImageInfo)
| Fatal (f : fatal).

(** What the user is shown, read as an outcome. *)
Definition outcome_of_ui (u : ui) : Outcome :=
  match u with
  | ShowError MsgNotExist => Fatal FileNotFound
  | ShowError MsgSelectImage => Fatal NotAnImage
  | ShowError MsgNoWorkspace => Fatal NoWorkspace
  | ShowError (MsgError _) => Fatal IOError
  | ShowInfo MsgNoDuplicates => NoneFound
  | ShowInfo MsgNoOtherDuplicates => OnlySelfFound
  | ShowQuickPick shown => DuplicatesFound shown
  end.

(** [runScan(targetPath)]: the command run on a target, its end read as an
    outcome. *)
Definition outcome_of_run (m : M ui) : Outcome :=
  match outcome m with
  | Ok u => outcome_of_ui u
  | Throw _ => Fatal IOError
  end.

Definition runScan_extension (h : Host) (targetPath : path) : Outcome :=
  outcome_of_run (Extension.checkDuplicates h (Some targetPath)).

Definition runScan_part000 (h : Host) (targetPath : path) : Outcome :=
  outcome_of_run (Part000.checkDuplicates h (Some targetPath)).

(* ================================================================== *)
(** ** A fixture *)

Module Fixture.

Definition bytes (s : string) : list byte := list_byte_of_string s.

(** A file read in one chunk. *)
Definition file (s : string) : node := File [bytes s] true.

(** The workspace [/ws]. *)
Definition ws : node :=
  Dir [ ("t.png", file "abc");
        (".icon.png", file "abc");
        ("img", Dir [ ("copy.png", File [bytes "a"; bytes "bc"] true);
                      ("other.png", file "xyz");
                      ("UP.PNG", file "abc");
                      ("bad.png", File [bytes "abc"] false);
                      ("notes.txt", file "abc");
                      ("link", Other) ] true);
        (".hidden", Dir [ ("h.png", file "abc") ] true);
        ("node_modules", Dir [ ("m.png", file "abc") ] true);
        ("locked", Dir [ ("l.png", file "abc") ] false) ] true.

Definition root : node := Dir [ ("ws", ws) ] true.

(** A [findFiles] that knows two patterns, resolves them as a search of
    the workspace would (nothing under [node_modules], nothing inside the
    directory that cannot be read), and rejects the malformed pattern. *)
Definition find (incl excl : string) : option (list path) :=
  if String.eqb incl "**/*.png" then
    Some [ ["ws"; "t.png"]; ["ws"; ".icon.png"]; ["ws"; "img"; "copy.png"];
           ["ws"; "img"; "other.png"]; ["ws"; "img"; "bad.png"];
           ["ws"; ".hidden"; "h.png"] ]
  else if String.eqb incl "img/*" then
    Some [ ["ws"; "img"; "copy.png"]; ["ws"; "img"; "other.png"];
           ["ws"; "img"; "UP.PNG"]; ["ws"; "img"; "bad.png"];
           ["ws"; "img"; "notes.txt"] ]
  else if String.eqb incl "[" then None
  else Some [].

Definition host (paths : option (list string)) : Host :=
  mkHost root None [["ws"]] None paths find.

Definition target : path := ["ws"; "t.png"].

(** The same files with no workspace folder open. *)
Definition host_no_workspace : Host :=
  mkHost root None [] None None find.

(** A target whose stream fails. *)
Definition bad_target : path := ["ws"; "img"; "bad.png"].

(** The same files with the directory that cannot be read opened as the
    workspace. *)
Definition host_locked_workspace : Host :=
  mkHost root None [["ws"; "locked"]] None None find.

(** The same files with patterns that [findFiles] rejects. *)
Definition host_bad_patterns : Host :=
  mkHost root None [["ws"]] None (Some ["["; "["]) find.

End Fixture.

(* ================================================================== *)
(** ** Induction on the file tree *)

Section NodeInduction.

Variable P : node -> Prop.
Hypothesis HFile : forall chunks ok, P (File chunks ok).
Hypothesis HDir : forall entries ok,
    Forall (fun e => P (snd e)) entries -> P (Dir entries ok).
Hypothesis HOther : P Other.

Fixpoint node_tree_ind (n : node) : P n :=
  match n with
  | File chunks ok => HFile chunks ok
  | Dir entries ok =>
      HDir entries ok
           ((fix all (es : list (string * node)) : Forall (fun e => P (snd e)) es :=
               match es with
               | [] => Forall_nil _
               | e :: rest => Forall_cons e (node_tree_ind (snd e)) (all rest)
               end) entries)
  | Other => HOther
  end.

End NodeInduction.

(** A computation that ends without an error. *)
Definition succeeds {A} (m : M A) : Prop := exists a, outcome m = Ok a.

(* ================================================================== *)
(** ** Auxiliary definitions for the proofs *)

(** Hashing one accepted file and recording it: the part of the loop body
    shared by the recursive walk and the glob scan. *)
Definition hashAndRecord (rootPath fullPath : path) (n : node) : M unit :=
  try_catch
    (md5 <- calculateMD5 fullPath n ;;
     let relativePath := relative rootPath fullPath in
     push (mkImageInfo fullPath md5 relativePath) ;;;
     emit (EvReport (PScanned relativePath)))
    (fun error => emit (EvConsoleError (LogMD5Failed fullPath error))).

(* ================================================================== *)
(** ** What a walk can reach

    [reaches d rel n]: going down from the directory [d] along the names
    [rel] ends at [n], every directory on the way can be read, and no name
    on the way, the last one included, is [node_modules] or starts with a
    dot. *)
Inductive reaches : node -> path -> node -> Prop :=
| reaches_entry entries name child :
    In (name, child) entries ->
    skipped name = false ->
    reaches (Dir entries true) [name] child
| reaches_below entries name child rel n :
    In (name, child) entries ->
    skipped name = false ->
    reaches child rel n ->
    reaches (Dir entries true) (name :: rel) n.

(** A segment that is [node_modules] or starts with a dot occurs in [p]. *)
Definition has_skipped_segment (p : path) : bool := existsb skipped p.

(** The directories a path goes through: all its segments but the last. *)
Definition directories (p : path) : list string := removelast p.

(** [p] lies under a directory called [node_modules]. *)
Definition under_node_modules (p : path) : bool :=
  existsb (String.eqb "node_modules") (directories p).

(** [p] lies under a directory whose name starts with a dot. *)
Definition under_dot_directory (p : path) : bool :=
  existsb startsWithDot (directories p).

(** What [findFiles] is trusted to do with the exclusion it is given. *)
Definition honours_exclusion (h : Host) : Prop :=
  forall incl files,
    findFiles h incl Part000.nodeModulesExclude = Some files ->
    Forall (fun p => under_node_modules p = false) files.

(** The events of a walk of the tree: reading a directory, hashing a file,
    reporting progress, logging a failure. *)
Definition walk_event (e : event) : bool :=
  match e with
  | EvReaddir _ | EvHash _ | EvReport _ | EvConsoleError _ => true
  | EvExistsSync _ | EvFindFiles _ _ => false
  end.

(** The events by which candidates are enumerated. *)
Definition enumeration_event (e : event) : bool :=
  match e with
  | EvReaddir _ | EvFindFiles _ _ => true
  | _ => false
  end.

(** The body of the loop of [Extension.scanRoots], for one root. *)
Definition scanRootBody (h : Host) (extensions : list string) (searchRoot : path) : M unit :=
  ex <- existsSync h searchRoot ;;
  if ex then
    scannedImages <- scanImageFiles h searchRoot extensions ;;
    push_all scannedImages
  else ret tt.

(** Whether [fs.existsSync] finds the path. *)
Definition root_exists (h : Host) (p : path) : bool :=
  match lookup (fs h) p with Some _ => true | None => false end.

(** The records of the recursive walk of one root. *)
Definition records_under (h : Host) (extensions : list string) (root : path) : list ImageInfo :=
  pushed (scanDirectory (normalizedExtensions extensions) root root (node_at (fs h) root)).

(** The events of the recursive walk of one root. *)
Definition events_under (h : Host) (extensions : list string) (root : path) : list event :=
  events (scanDirectory (normalizedExtensions extensions) root root (node_at (fs h) root)).

(* ================================================================== *)
(** ** The specification's own words, as definitions *)

(** Resolve outcome: [matches] are the records with the target's
    fingerprint, [others] are [matches] without the records at the target's
    path; none, only the target itself, or the others. *)
Definition resolveOutcome_spec (fingerprint : string) (targetPath : path)
           (records : list ImageInfo) : Outcome :=
  let matches := filter (fun r => String.eqb (md5 r) fingerprint) records in
  let others := filter (fun r => negb (path_eqb (filePath r) targetPath)) matches in
  match matches with
  | [] => NoneFound
  | _ :: _ =>
      match others with
      | [] => OnlySelfFound
      | _ :: _ => DuplicatesFound others
      end
  end.

(** Validate: the target exists, its extension is an image extension, a
    workspace is open; the first test that fails names the fatal error. *)
Definition validate_spec (h : Host) (targetPath : path) : option fatal :=
  if negb (root_exists h targetPath) then Some FileNotFound
  else if negb (includes (toLowerCase (extname_path targetPath)) (imageExtensions h))
       then Some NotAnImage
  else match workspaceFolders h with
       | [] => Some NoWorkspace
       | _ :: _ => None
       end.

(** The two tests extension.ts makes before it hashes the target. *)
Definition validate_target (h : Host) (targetPath : path) : option fatal :=
  if negb (root_exists h targetPath) then Some FileNotFound
  else if negb (includes (toLowerCase (extname_path targetPath)) (imageExtensions h))
       then Some NotAnImage
  else None.

(** An outcome that is not a fatal error. *)
Definition definite (o : Outcome) : Prop :=
  match o with
  | Fatal _ => False
  | _ => True
  end.

(** Whether [calculateMD5] resolves on what is at the path. *)
Definition readable (n : node) : bool :=
  match n with
  | File _ true => true
  | _ => false
  end.

(** What [resolveDuplicates] shows; it has no effect of its own. *)
Definition resolve_ui (targetMD5 : string) (targetPath : path)
           (allImages : list ImageInfo) : ui :=
  match outcome (resolveDuplicates targetMD5 targetPath allImages) with
  | Ok u => u
  | Throw e => ShowError (MsgError e)
  end.

(** The message of a fatal error of the validation. *)
Definition message_of_fatal (f : fatal) : error_message :=
  match f with
  | FileNotFound => MsgNotExist
  | NotAnImage => MsgSelectImage
  | NoWorkspace => MsgNoWorkspace
  | IOError => MsgError (ErrRead [])
  end.

(** The records extension.ts gathers: those of its search roots that exist. *)
Definition extension_records (h : Host) (workspaceRoot : path) : list ImageInfo :=
  flat_map (fun r => if root_exists h r then records_under h (imageExtensions h) r else [])
           (Extension.searchRoots workspaceRoot (searchPaths h)).

Definition extension_scan_events (h : Host) (workspaceRoot : path) : list event :=
  flat_map (fun r => EvExistsSync r ::
              (if root_exists h r then events_under h (imageExtensions h) r else []))
           (Extension.searchRoots workspaceRoot (searchPaths h)).

(** A tree as a file system has it: no directory lists a name twice. *)
#[local] Unset Elimination Schemes.
Inductive unique_names : node -> Prop :=
| unique_file chunks ok : unique_names (File chunks ok)
| unique_other : unique_names Other
| unique_dir entries ok :
    NoDup (map fst entries) ->
    Forall (fun e => unique_names (snd e)) entries ->
    unique_names (Dir entries ok).
#[local] Set Elimination Schemes.

(** The records part_000 gathers: what its scan returns. *)
Definition part000_records (h : Host) (workspaceRoot : path) : list ImageInfo :=
  match outcome (Part000.scanImageFilesWithGlob h (searchPaths h) workspaceRoot) with
  | Ok images => images
  | Throw _ => []
  end.

(** The relative paths reported as scanned, in the order of the reports. *)
Definition scanned_reports (t : list event) : list path :=
  flat_map (fun e => match e with EvReport (PScanned rel) => [rel] | _ => [] end) t.

(** The paths [calculateMD5] was called on, in the order of the calls. *)
Definition hashed (t : list event) : list path :=
  flat_map (fun e => match e with EvHash p => [p] | _ => [] end) t.

(** The paths logged as having failed to hash, in the order of the logs. *)
Definition failed_hashes (t : list event) : list path :=
  flat_map (fun e => match e with
                     | EvConsoleError (LogMD5Failed p _) => [p]
                     | _ => []
                     end) t.

(** A log and the records that go with it: one progress report per record,
    in order, and every hash attempt either recorded or logged as failed. *)
Definition accounted (t : list event) (records : list ImageInfo) : Prop :=
  scanned_reports t = map relativePath records
  /\ Permutation (hashed t) (map filePath records ++ failed_hashes t).
(* ================================================================== *)
(** ** The digest and the fixture, checked on examples *)

(** RFC 1321 test suite and two more lengths around the block size. *)
Example md5_empty :
  MD5.hexdigest [] = "d41d8cd98f00b204e9800998ecf8427e".
Proof. vm_compute. reflexivity. Qed.

Example md5_abc :
  MD5.hexdigest (list_byte_of_string "abc") = "900150983cd24fb0d6963f7d28e17f72".
Proof. vm_compute. reflexivity. Qed.

Example md5_message_digest :
  MD5.hexdigest (list_byte_of_string "message digest")
  = "f96b697d7cb7938d525a2f31aaf161d0".
Proof. vm_compute. reflexivity. Qed.

Example md5_two_blocks :
  MD5.hexdigest (repeat "a"%byte 64) = "014842d480b571495a4a0363793f7367"
  /\ MD5.hexdigest (repeat "a"%byte 56) = "3b0c8ac703f828b04c6c197006d17218"
  /\ MD5.hexdigest (repeat "a"%byte 119) = "8a7bd0732ed6a28ce75f6dabc90e1613".
Proof. vm_compute. repeat split. Qed.

Example fixture_extension_default :
  runScan_extension (Fixture.host None) Fixture.target
  = DuplicatesFound
      [ mkImageInfo ["ws"; "img"; "copy.png"] "900150983cd24fb0d6963f7d28e17f72"
                    ["img"; "copy.png"];
        mkImageInfo ["ws"; "img"; "UP.PNG"] "900150983cd24fb0d6963f7d28e17f72"
                    ["img"; "UP.PNG"] ].
Proof. vm_compute. reflexivity. Qed.

Example fixture_part000_glob :
  runScan_part000 (Fixture.host (Some ["**/*.png"])) Fixture.target
  = DuplicatesFound
      [ mkImageInfo ["ws"; ".icon.png"] "900150983cd24fb0d6963f7d28e17f72"
                    [".icon.png"];
        mkImageInfo ["ws"; "img"; "copy.png"] "900150983cd24fb0d6963f7d28e17f72"
                    ["img"; "copy.png"];
        mkImageInfo ["ws"; ".hidden"; "h.png"] "900150983cd24fb0d6963f7d28e17f72"
                    [".hidden"; "h.png"] ].
Proof. vm_compute. reflexivity. Qed.

Example fixture_part000_empty_is_recursive :
  runScan_part000 (Fixture.host None) Fixture.target
  = runScan_extension (Fixture.host None) Fixture.target.
Proof. vm_compute. reflexivity. Qed.

Example fixture_only_self :
  runScan_extension (Fixture.host (Some ["docs"; "."])) ["ws"; "img"; "other.png"]
  = OnlySelfFound
  /\ runScan_extension (Fixture.host (Some ["locked"])) Fixture.target = NoneFound
  /\ runScan_extension (Fixture.host None) ["ws"; "img"; "notes.txt"] = Fatal NotAnImage.
Proof. vm_compute. repeat split. Qed.

Example extname_examples :
  map extname [".icon.png"; ".gitignore"; "a.b.c"; "index."; ".."; "a"; "x.PNG"]
  = [".png"; ""; ".c"; "."; ""; ""; ".PNG"].
Proof. reflexivity. Qed.

Example path_examples :
  path_join ["ws"] "a/./b/../c//d/" = ["ws"; "a"; "c"; "d"]
  /\ path_join ["ws"] "" = ["ws"]
  /\ relative ["ws"] ["ws"; "img"; "a.png"] = ["img"; "a.png"]
  /\ relative ["ws"; "sub"] ["ws"; "img"; "a.png"] = [".."; "img"; "a.png"].
Proof. repeat split. Qed.

(* ================================================================== *)
(** ** Laws of the effects *)

Lemma events_bind {A B} (m : M A) (f : A -> M B) :
  events (bind m f)
  = events m ++ match outcome m with Ok a => events (f a) | Throw _ => [] end.
Proof.
  destruct m as [[t p] [a|e]]; unfold events, outcome; simpl.
  - destruct (f a) as [[t' p'] r]; reflexivity.
  - now rewrite app_nil_r.
Qed.

Lemma pushed_bind {A B} (m : M A) (f : A -> M B) :
  pushed (bind m f)
  = pushed m ++ match outcome m with Ok a => pushed (f a) | Throw _ => [] end.
Proof.
  destruct m as [[t p] [a|e]]; unfold pushed, outcome; simpl.
  - destruct (f a) as [[t' p'] r]; reflexivity.
  - now rewrite app_nil_r.
Qed.

Lemma outcome_bind {A B} (m : M A) (f : A -> M B) :
  outcome (bind m f)
  = match outcome m with Ok a => outcome (f a) | Throw e => Throw e end.
Proof.
  destruct m as [[t p] [a|e]]; unfold outcome; simpl; [|reflexivity].
  destruct (f a) as [[t' p'] r]; reflexivity.
Qed.

Lemma events_try_catch {A} (m : M A) (k : error -> M A) :
  events (try_catch m k)
  = events m ++ match outcome m with Ok _ => [] | Throw e => events (k e) end.
Proof.
  destruct m as [[t p] [a|e]]; unfold events, outcome; simpl.
  - now rewrite app_nil_r.
  - destruct (k e) as [[t' p'] r]; reflexivity.
Qed.

Lemma pushed_try_catch {A} (m : M A) (k : error -> M A) :
  pushed (try_catch m k)
  = pushed m ++ match outcome m with Ok _ => [] | Throw e => pushed (k e) end.
Proof.
  destruct m as [[t p] [a|e]]; unfold pushed, outcome; simpl.
  - now rewrite app_nil_r.
  - destruct (k e) as [[t' p'] r]; reflexivity.
Qed.

Lemma outcome_try_catch {A} (m : M A) (k : error -> M A) :
  outcome (try_catch m k)
  = match outcome m with Ok a => Ok a | Throw e => outcome (k e) end.
Proof.
  destruct m as [[t p] [a|e]]; unfold outcome; simpl; [reflexivity|].
  destruct (k e) as [[t' p'] r]; reflexivity.
Qed.

Lemma events_with_images (m : M unit) : events (with_images m) = events m.
Proof. destruct m as [[t p] [a|e]]; reflexivity. Qed.

Lemma pushed_with_images (m : M unit) : pushed (with_images m) = [].
Proof. destruct m as [[t p] [a|e]]; reflexivity. Qed.

Lemma outcome_with_images (m : M unit) :
  outcome (with_images m)
  = match outcome m with Ok _ => Ok (pushed m) | Throw e => Throw e end.
Proof. destruct m as [[t p] [a|e]]; reflexivity. Qed.

Lemma succeeds_unit (m : M unit) : succeeds m <-> outcome m = Ok tt.
Proof.
  split; [intros [[] H]; exact H | intros H; now exists tt].
Qed.

(** A loop whose body never throws runs to its end, and its logs are those
    of the bodies, one after the other. *)
Lemma forEach_succeeds {A} (l : list A) (body : A -> M unit) :
  (forall x, In x l -> outcome (body x) = Ok tt) ->
  outcome (forEach l body) = Ok tt
  /\ events (forEach l body) = flat_map (fun x => events (body x)) l
  /\ pushed (forEach l body) = flat_map (fun x => pushed (body x)) l.
Proof.
  induction l as [|x rest IH]; intros Hb; simpl.
  - repeat split.
  - destruct IH as (Ho & He & Hp); [intros y Hy; apply Hb; now right|].
    rewrite outcome_bind, events_bind, pushed_bind, (Hb x (or_introl eq_refl)).
    rewrite Ho, He, Hp. repeat split.
Qed.

(* ================================================================== *)
(** ** The recursive walk *)

(** [scanDirectory] is its loop body run over the entries. *)
Lemma scanDirectory_eq normalized rootPath dirPath d :
  scanDirectory normalized rootPath dirPath d
  = try_catch
      (emit (EvReaddir dirPath) ;;;
       match d with
       | Dir entries true => forEach entries (scanEntry normalized rootPath dirPath)
       | _ => throw (ErrReaddir dirPath)
       end)
      (fun error => emit (EvConsoleError (LogScanDirFailed dirPath error))).
Proof.
  destruct d as [chunks ok|entries ok|]; try reflexivity.
  destruct ok; [|reflexivity].
  cbn [scanDirectory]. do 3 f_equal.
  induction entries as [|[name child] rest IH]; [reflexivity|].
  cbn [forEach scanEntry]. rewrite <- IH. reflexivity.
Qed.

(** Feeding the chunks one by one feeds the bytes of the file. *)
Lemma hash_update_chunks (chunks : list (list byte)) (st : list byte) :
  fold_left hash_update chunks st = st ++ content chunks.
Proof.
  revert st; induction chunks as [|c rest IH]; intros st; simpl.
  - now rewrite app_nil_r.
  - rewrite IH. unfold hash_update, content. simpl. now rewrite app_assoc.
Qed.

Lemma calculateMD5_events filePath n : events (calculateMD5 filePath n) = [EvHash filePath].
Proof. destruct n as [chunks [|]|entries ok|]; reflexivity. Qed.

Lemma calculateMD5_pushed filePath n : pushed (calculateMD5 filePath n) = [].
Proof. destruct n as [chunks [|]|entries ok|]; reflexivity. Qed.

Lemma calculateMD5_outcome filePath n :
  outcome (calculateMD5 filePath n)
  = match n with
    | File chunks true => Ok (MD5.hexdigest (content chunks))
    | _ => Throw (ErrRead filePath)
    end.
Proof.
  destruct n as [chunks [|]|entries ok|]; try reflexivity.
  unfold calculateMD5, outcome, hash_digest_hex; simpl.
  now rewrite hash_update_chunks.
Qed.

Lemma hashAndRecord_outcome rootPath fullPath n :
  outcome (hashAndRecord rootPath fullPath n) = Ok tt.
Proof.
  unfold hashAndRecord. rewrite outcome_try_catch, outcome_bind, calculateMD5_outcome.
  destruct n as [chunks [|]|entries ok|]; reflexivity.
Qed.

Lemma hashAndRecord_events rootPath fullPath n :
  events (hashAndRecord rootPath fullPath n)
  = EvHash fullPath ::
    match n with
    | File _ true => [EvReport (PScanned (relative rootPath fullPath))]
    | _ => [EvConsoleError (LogMD5Failed fullPath (ErrRead fullPath))]
    end.
Proof.
  unfold hashAndRecord.
  rewrite events_try_catch, events_bind, outcome_bind, calculateMD5_events,
    calculateMD5_outcome.
  destruct n as [chunks [|]|entries ok|]; reflexivity.
Qed.

Lemma hashAndRecord_pushed rootPath fullPath n :
  pushed (hashAndRecord rootPath fullPath n)
  = match n with
    | File chunks true =>
        [mkImageInfo fullPath (MD5.hexdigest (content chunks)) (relative rootPath fullPath)]
    | _ => []
    end.
Proof.
  unfold hashAndRecord.
  rewrite pushed_try_catch, pushed_bind, outcome_bind, calculateMD5_pushed,
    calculateMD5_outcome.
  destruct n as [chunks [|]|entries ok|]; reflexivity.
Qed.

(** The loop body, case by case. *)
Lemma scanEntry_eq normalized rootPath dirPath name child :
  scanEntry normalized rootPath dirPath (name, child)
  = if skipped name then ret tt
    else match child with
         | Dir _ _ => scanDirectory normalized rootPath (join_entry dirPath name) child
         | File _ _ =>
             if includes (toLowerCase (extname name)) normalized
             then hashAndRecord rootPath (join_entry dirPath name) child
             else ret tt
         | Other => ret tt
         end.
Proof. reflexivity. Qed.

(** The walk never throws: a directory that cannot be read and a file that
    cannot be hashed are both caught where they happen. *)
Lemma scanDirectory_outcome d :
  forall normalized rootPath dirPath,
    outcome (scanDirectory normalized rootPath dirPath d) = Ok tt.
Proof.
  induction d as [chunks ok|entries ok IH|] using node_tree_ind;
    intros normalized rootPath dirPath; rewrite scanDirectory_eq;
    rewrite outcome_try_catch, outcome_bind; try reflexivity.
  destruct ok; [|reflexivity]. cbn [outcome emit snd].
  destruct (forEach_succeeds entries (scanEntry normalized rootPath dirPath)) as (Ho & _).
  - intros [name child] Hin. rewrite scanEntry_eq.
    destruct (skipped name); [reflexivity|].
    destruct child as [c o|es o|]; try reflexivity.
    + destruct (includes _ _); [apply hashAndRecord_outcome | reflexivity].
    + rewrite Forall_forall in IH. apply (IH _ Hin).
  - now rewrite Ho.
Qed.

Lemma scanEntry_outcome normalized rootPath dirPath entry :
  outcome (scanEntry normalized rootPath dirPath entry) = Ok tt.
Proof.
  destruct entry as [name child]. rewrite scanEntry_eq.
  destruct (skipped name); [reflexivity|].
  destruct child as [c o|es o|]; try reflexivity.
  - destruct (includes _ _); [apply hashAndRecord_outcome | reflexivity].
  - apply scanDirectory_outcome.
Qed.

Lemma scanDirectory_events normalized rootPath dirPath d :
  events (scanDirectory normalized rootPath dirPath d)
  = EvReaddir dirPath ::
    match d with
    | Dir entries true =>
        flat_map (fun e => events (scanEntry normalized rootPath dirPath e)) entries
    | _ => [EvConsoleError (LogScanDirFailed dirPath (ErrReaddir dirPath))]
    end.
Proof.
  rewrite scanDirectory_eq, events_try_catch, events_bind, outcome_bind.
  cbn [events outcome emit fst snd app].
  destruct d as [chunks ok|entries [|]|]; try reflexivity.
  destruct (forEach_succeeds entries (scanEntry normalized rootPath dirPath))
    as (Ho & He & _); [intros; apply scanEntry_outcome|].
  unfold outcome, events in *. rewrite Ho, He. now rewrite app_nil_r.
Qed.

Lemma scanDirectory_pushed normalized rootPath dirPath d :
  pushed (scanDirectory normalized rootPath dirPath d)
  = match d with
    | Dir entries true =>
        flat_map (fun e => pushed (scanEntry normalized rootPath dirPath e)) entries
    | _ => []
    end.
Proof.
  rewrite scanDirectory_eq, pushed_try_catch, pushed_bind, outcome_bind.
  cbn [pushed outcome emit fst snd app].
  destruct d as [chunks ok|entries [|]|]; try reflexivity.
  destruct (forEach_succeeds entries (scanEntry normalized rootPath dirPath))
    as (Ho & _ & Hp); [intros; apply scanEntry_outcome|].
  unfold outcome, pushed in *. rewrite Ho, Hp. now rewrite app_nil_r.
Qed.

Lemma basename_join dirPath name : basename (join_entry dirPath name) = name.
Proof. unfold basename, join_entry. apply last_last. Qed.



(** The files the walk hashes are the files it can reach whose extension,
    in lower case, is among the normalised extensions. *)
Lemma scanDirectory_hashes d :
  forall normalized rootPath dirPath p,
    In (EvHash p) (events (scanDirectory normalized rootPath dirPath d))
    <-> exists rel chunks ok,
        p = dirPath ++ rel
        /\ reaches d rel (File chunks ok)
        /\ includes (toLowerCase (extname_path p)) normalized = true.
Proof.
  induction d as [chunks ok|entries ok IH|] using node_tree_ind;
    intros normalized rootPath dirPath p; rewrite scanDirectory_events.
  - split.
    + intros [H|[H|[]]]; discriminate.
    + intros (rel & c & o & _ & H & _). inversion H.
  - rewrite Forall_forall in IH. destruct ok.
    + split.
      * intros [H|H]; [discriminate|].
        apply in_flat_map in H. destruct H as ([name child] & Hin & He).
        rewrite scanEntry_eq in He.
        destruct (skipped name) eqn:Hs; [destruct He|].
        destruct child as [c o|es o|].
        -- destruct (includes _ normalized) eqn:Hi; [|destruct He].
           rewrite hashAndRecord_events in He.
           assert (Hp : p = join_entry dirPath name).
           { destruct He as [He|He]; [now inversion He|].
             destruct o; destruct He as [He|[]]; discriminate. }
           exists [name], c, o. subst p. repeat split.
           ++ now apply reaches_entry.
           ++ unfold extname_path. now rewrite basename_join.
        -- apply (IH _ Hin) in He. destruct He as (rel & c & o' & Hp & Hr & Hi).
           exists (name :: rel), c, o'. repeat split.
           ++ rewrite Hp. unfold join_entry. now rewrite <- app_assoc.
           ++ simpl in Hr. now apply reaches_below with (child := Dir es o).
           ++ exact Hi.
        -- destruct He.
      * intros (rel & c & o & Hp & Hr & Hi). right.
        apply in_flat_map. inversion Hr as [es name child Hin Hs|es name child rel' n Hin Hs Hr']; subst.
        -- exists (name, File c o). split; [exact Hin|].
           rewrite scanEntry_eq, Hs.
           unfold extname_path in Hi. change (dirPath ++ [name]) with (join_entry dirPath name) in Hi.
           rewrite basename_join in Hi. rewrite Hi, hashAndRecord_events. now left.
        -- exists (name, child). split; [exact Hin|].
           rewrite scanEntry_eq, Hs.
           destruct child as [c' o'|es' o'|]; try solve [inversion Hr'].
           apply (IH _ Hin). exists rel', c, o. repeat split.
           ++ unfold join_entry. now rewrite <- app_assoc.
           ++ exact Hr'.
           ++ exact Hi.
    + split.
      * intros [H|[H|[]]]; discriminate.
      * intros (rel & c & o & _ & H & _). inversion H.
  - split.
    + intros [H|[H|[]]]; discriminate.
    + intros (rel & c & o & _ & H & _). inversion H.
Qed.

(** The records the walk pushes are those of the reachable files with an
    accepted extension whose stream could be read to its end; each carries
    the digest of the file's bytes. *)
Lemma scanDirectory_records d :
  forall normalized rootPath dirPath img,
    In img (pushed (scanDirectory normalized rootPath dirPath d))
    <-> exists rel chunks,
        img = mkImageInfo (dirPath ++ rel) (MD5.hexdigest (content chunks))
                          (relative rootPath (dirPath ++ rel))
        /\ reaches d rel (File chunks true)
        /\ includes (toLowerCase (extname_path (dirPath ++ rel))) normalized = true.
Proof.
  induction d as [chunks ok|entries ok IH|] using node_tree_ind;
    intros normalized rootPath dirPath img; rewrite scanDirectory_pushed.
  - split; [intros [] | intros (rel & c & _ & H & _); inversion H].
  - rewrite Forall_forall in IH. destruct ok.
    + split.
      * intros H. apply in_flat_map in H. destruct H as ([name child] & Hin & He).
        rewrite scanEntry_eq in He.
        destruct (skipped name) eqn:Hs; [destruct He|].
        destruct child as [c o|es o|].
        -- destruct (includes _ normalized) eqn:Hi; [|destruct He].
           rewrite hashAndRecord_pushed in He.
           destruct o; [|destruct He]. destruct He as [He|[]].
           exists [name], c. repeat split.
           ++ now symmetry.
           ++ now apply reaches_entry.
           ++ unfold extname_path.
              change (dirPath ++ [name]) with (join_entry dirPath name).
              now rewrite basename_join.
        -- apply (IH _ Hin) in He. destruct He as (rel & c & Hp & Hr & Hi).
           exists (name :: rel), c. unfold join_entry in *.
           rewrite <- !app_assoc in *. simpl in *. repeat split; try assumption.
           now apply reaches_below with (child := Dir es o).
        -- destruct He.
      * intros (rel & c & Hp & Hr & Hi).
        apply in_flat_map. inversion Hr as [es name child Hin Hs|es name child rel' n Hin Hs Hr']; subst.
        -- exists (name, File c true). split; [exact Hin|].
           rewrite scanEntry_eq, Hs.
           unfold extname_path in Hi. change (dirPath ++ [name]) with (join_entry dirPath name) in Hi.
           rewrite basename_join in Hi. rewrite Hi, hashAndRecord_pushed. now left.
        -- exists (name, child). split; [exact Hin|].
           rewrite scanEntry_eq, Hs.
           destruct child as [c' o'|es' o'|]; try solve [inversion Hr'].
           apply (IH _ Hin). exists rel', c. unfold join_entry.
           rewrite <- !app_assoc. simpl. repeat split; assumption.
    + split; [intros [] | intros (rel & c & _ & H & _); inversion H].
  - split; [intros [] | intros (rel & c & _ & H & _); inversion H].
Qed.

(** No name on the way to a reachable node is one the walk passes over. *)
Lemma reaches_no_skipped d rel n :
  reaches d rel n -> has_skipped_segment rel = false.
Proof.
  unfold has_skipped_segment.
  induction 1 as [es name child Hin Hs|es name child rel n Hin Hs Hr IH]; simpl.
  - now rewrite Hs.
  - now rewrite Hs, IH.
Qed.

Lemma skipped_dot name : startsWithDot name = true -> skipped name = true.
Proof. intros H. unfold skipped. rewrite H. apply orb_true_r. Qed.

Lemma skipped_node_modules : skipped "node_modules" = true.
Proof. reflexivity. Qed.

Lemma existsb_weaken {A} (f g : A -> bool) (l : list A) :
  (forall x, f x = true -> g x = true) -> existsb f l = true -> existsb g l = true.
Proof.
  intros Hfg H. apply existsb_exists in H. destruct H as (x & Hin & Hx).
  apply existsb_exists. exists x. auto.
Qed.

Lemma scanImageFiles_events h rootPath extensions :
  events (scanImageFiles h rootPath extensions)
  = events (scanDirectory (normalizedExtensions extensions) rootPath rootPath
                          (node_at (fs h) rootPath)).
Proof. unfold scanImageFiles. apply events_with_images. Qed.

Lemma scanImageFiles_outcome h rootPath extensions :
  outcome (scanImageFiles h rootPath extensions)
  = Ok (pushed (scanDirectory (normalizedExtensions extensions) rootPath rootPath
                              (node_at (fs h) rootPath))).
Proof.
  unfold scanImageFiles. now rewrite outcome_with_images, scanDirectory_outcome.
Qed.

Lemma scanImageFiles_pushed h rootPath extensions :
  pushed (scanImageFiles h rootPath extensions) = [].
Proof. unfold scanImageFiles. apply pushed_with_images. Qed.

(** C9. In the recursive walk an entry whose name starts with a dot is
    passed over whatever it is, a file as much as a directory: the loop body
    does nothing for it, and so no path with a dot-prefixed segment below
    the scanned root, an image file such as [.icon.png] included, is ever
    hashed or recorded by [scanImageFiles]. *)
Theorem dot_entries_never_scanned h rootPath extensions rel :
  existsb startsWithDot rel = true ->
  (forall normalized dirPath name child,
      startsWithDot name = true ->
      scanEntry normalized rootPath dirPath (name, child) = ret tt)
  /\ ~ In (EvHash (rootPath ++ rel)) (events (scanImageFiles h rootPath extensions))
  /\ forall images img,
      outcome (scanImageFiles h rootPath extensions) = Ok images ->
      In img images -> filePath img <> rootPath ++ rel.
Proof.
  intros Hdot.
  assert (Hsk : has_skipped_segment rel = true).
  { unfold has_skipped_segment. revert Hdot. apply existsb_weaken, skipped_dot. }
  split; [|split].
  - intros normalized dirPath name child Hn.
    rewrite scanEntry_eq, (skipped_dot _ Hn). reflexivity.
  - rewrite scanImageFiles_events. intros H.
    apply scanDirectory_hashes in H. destruct H as (rel' & c & o & Hp & Hr & _).
    apply app_inv_head in Hp. subst rel'.
    apply reaches_no_skipped in Hr. congruence.
  - intros images img Ho Hin Hp.
    rewrite scanImageFiles_outcome in Ho. injection Ho as <-.
    apply scanDirectory_records in Hin. destruct Hin as (rel' & c & -> & Hr & _).
    simpl in Hp. apply app_inv_head in Hp. subst rel'.
    apply reaches_no_skipped in Hr. congruence.
Qed.

(** The dot-prefixed image file of the fixture: its extension is accepted,
    and it is neither hashed nor recorded. *)
Lemma dot_entries_never_scanned_witness :
  includes (toLowerCase (extname ".icon.png")) (imageExtensions (Fixture.host None)) = true
  /\ ~ In (EvHash ["ws"; ".icon.png"])
          (events (scanImageFiles (Fixture.host None) ["ws"] defaultImageExtensions)).
Proof.
  split; [reflexivity|].
  apply (dot_entries_never_scanned (Fixture.host None) ["ws"] defaultImageExtensions
                                   [".icon.png"]).
  reflexivity.
Defined.

(* ================================================================== *)
(** ** The glob scan of part_000 *)

Lemma scanGlobFile_eq h normalized workspaceRoot filePath :
  Part000.scanGlobFile h normalized workspaceRoot filePath
  = if includes (toLowerCase (extname_path filePath)) normalized
    then hashAndRecord workspaceRoot filePath (node_at (fs h) filePath)
    else ret tt.
Proof.
  unfold Part000.scanGlobFile. now destruct (includes _ _).
Qed.

Lemma scanGlobFile_outcome h normalized workspaceRoot filePath :
  outcome (Part000.scanGlobFile h normalized workspaceRoot filePath) = Ok tt.
Proof.
  rewrite scanGlobFile_eq.
  destruct (includes _ _); [apply hashAndRecord_outcome | reflexivity].
Qed.

Lemma findFilesM_run h pattern exclude :
  Part000.findFilesM h pattern exclude
  = ([EvFindFiles pattern exclude], [],
     match findFiles h pattern exclude with
     | Some files => Ok files
     | None => Throw (ErrFindFiles pattern)
     end).
Proof.
  unfold Part000.findFilesM. now destruct (findFiles h pattern exclude).
Qed.

Lemma scanGlobPattern_outcome h normalized workspaceRoot pattern :
  outcome (Part000.scanGlobPattern h normalized workspaceRoot pattern) = Ok tt.
Proof.
  unfold Part000.scanGlobPattern.
  rewrite outcome_try_catch, outcome_bind, findFilesM_run.
  destruct (findFiles h pattern _) as [files|]; cbn [outcome snd]; [|reflexivity].
  destruct (forEach_succeeds files (Part000.scanGlobFile h normalized workspaceRoot))
    as (Ho & _); [intros; apply scanGlobFile_outcome|].
  now rewrite Ho.
Qed.

Lemma scanGlobPattern_events h normalized workspaceRoot pattern :
  events (Part000.scanGlobPattern h normalized workspaceRoot pattern)
  = EvFindFiles pattern Part000.nodeModulesExclude ::
    match findFiles h pattern Part000.nodeModulesExclude with
    | Some files =>
        flat_map (fun f => events (Part000.scanGlobFile h normalized workspaceRoot f)) files
    | None => [EvConsoleError (LogPatternFailed pattern (ErrFindFiles pattern))]
    end.
Proof.
  unfold Part000.scanGlobPattern.
  rewrite events_try_catch, events_bind, outcome_bind, findFilesM_run.
  destruct (findFiles h pattern _) as [files|]; cbn [events outcome fst snd app];
    [|reflexivity].
  destruct (forEach_succeeds files (Part000.scanGlobFile h normalized workspaceRoot))
    as (Ho & He & _); [intros; apply scanGlobFile_outcome|].
  rewrite Ho, He. cbn. now rewrite app_nil_r.
Qed.

Lemma scanGlobPattern_pushed h normalized workspaceRoot pattern :
  pushed (Part000.scanGlobPattern h normalized workspaceRoot pattern)
  = match findFiles h pattern Part000.nodeModulesExclude with
    | Some files =>
        flat_map (fun f => pushed (Part000.scanGlobFile h normalized workspaceRoot f)) files
    | None => []
    end.
Proof.
  unfold Part000.scanGlobPattern.
  rewrite pushed_try_catch, pushed_bind, outcome_bind, findFilesM_run.
  destruct (findFiles h pattern _) as [files|]; cbn [pushed outcome fst snd app];
    [|reflexivity].
  destruct (forEach_succeeds files (Part000.scanGlobFile h normalized workspaceRoot))
    as (Ho & _ & Hp); [intros; apply scanGlobFile_outcome|].
  rewrite Ho, Hp. cbn. now rewrite app_nil_r.
Qed.

Lemma scanImageFilesWithGlob_patterns h globPatterns workspaceRoot :
  globPatterns <> [] ->
  let normalized := normalizedExtensions (imageExtensions h) in
  events (Part000.scanImageFilesWithGlob h globPatterns workspaceRoot)
  = flat_map (fun p => events (Part000.scanGlobPattern h normalized workspaceRoot p))
             globPatterns
  /\ outcome (Part000.scanImageFilesWithGlob h globPatterns workspaceRoot)
     = Ok (flat_map (fun p => pushed (Part000.scanGlobPattern h normalized workspaceRoot p))
                    globPatterns).
Proof.
  intros Hne normalized. unfold Part000.scanImageFilesWithGlob.
  destruct globPatterns as [|p rest]; [contradiction|]. cbn [List.length Nat.eqb].
  fold normalized.
  destruct (forEach_succeeds (p :: rest) (Part000.scanGlobPattern h normalized workspaceRoot))
    as (Ho & He & Hp); [intros; apply scanGlobPattern_outcome|].
  rewrite events_with_images, outcome_with_images, Ho, He, Hp. split; reflexivity.
Qed.

Lemma scanImageFilesWithGlob_empty h workspaceRoot :
  Part000.scanImageFilesWithGlob h [] workspaceRoot
  = scanImageFiles h workspaceRoot (imageExtensions h).
Proof. reflexivity. Qed.

(** The files the glob scan hashes: those a pattern resolved to, with an
    accepted extension. *)
Lemma glob_hashes h globPatterns workspaceRoot p :
  globPatterns <> [] ->
  In (EvHash p) (events (Part000.scanImageFilesWithGlob h globPatterns workspaceRoot))
  <-> (exists pattern files,
          In pattern globPatterns
          /\ findFiles h pattern Part000.nodeModulesExclude = Some files
          /\ In p files)
      /\ includes (toLowerCase (extname_path p))
                  (normalizedExtensions (imageExtensions h)) = true.
Proof.
  intros Hne.
  destruct (scanImageFilesWithGlob_patterns h globPatterns workspaceRoot Hne) as (He & _).
  rewrite He, in_flat_map. split.
  - intros (pattern & Hin & H). rewrite scanGlobPattern_events in H.
    destruct H as [H|H]; [discriminate|].
    destruct (findFiles h pattern _) as [files|] eqn:Hf.
    + apply in_flat_map in H. destruct H as (f & Hfin & H).
      rewrite scanGlobFile_eq in H.
      destruct (includes _ _) eqn:Hi; [|destruct H].
      rewrite hashAndRecord_events in H.
      assert (p = f) as ->.
      { destruct H as [H|H]; [now inversion H|].
        destruct (node_at (fs h) f) as [c [|]|es o|]; destruct H as [H|[]]; discriminate. }
      split; [now exists pattern, files | exact Hi].
    + destruct H as [H|[]]; discriminate.
  - intros ((pattern & files & Hin & Hf & Hp) & Hi).
    exists pattern. split; [exact Hin|].
    rewrite scanGlobPattern_events, Hf. right.
    apply in_flat_map. exists p. split; [exact Hp|].
    rewrite scanGlobFile_eq, Hi, hashAndRecord_events. now left.
Qed.

(** The records of the glob scan: one for each resolved file with an
    accepted extension whose stream could be read to its end. *)
Lemma glob_records h globPatterns workspaceRoot images img :
  globPatterns <> [] ->
  outcome (Part000.scanImageFilesWithGlob h globPatterns workspaceRoot) = Ok images ->
  In img images
  <-> exists pattern files chunks,
      In pattern globPatterns
      /\ findFiles h pattern Part000.nodeModulesExclude = Some files
      /\ In (filePath img) files
      /\ includes (toLowerCase (extname_path (filePath img)))
                  (normalizedExtensions (imageExtensions h)) = true
      /\ node_at (fs h) (filePath img) = File chunks true
      /\ img = mkImageInfo (filePath img) (MD5.hexdigest (content chunks))
                           (relative workspaceRoot (filePath img)).
Proof.
  intros Hne Ho.
  destruct (scanImageFilesWithGlob_patterns h globPatterns workspaceRoot Hne) as (_ & Ho').
  rewrite Ho' in Ho. injection Ho as <-. rewrite in_flat_map. split.
  - intros (pattern & Hin & H). rewrite scanGlobPattern_pushed in H.
    destruct (findFiles h pattern _) as [files|] eqn:Hf; [|destruct H].
    apply in_flat_map in H. destruct H as (f & Hfin & H).
    rewrite scanGlobFile_eq in H.
    destruct (includes _ _) eqn:Hi; [|destruct H].
    rewrite hashAndRecord_pushed in H.
    destruct (node_at (fs h) f) as [c [|]|es o|] eqn:Hn; try contradiction.
    destruct H as [H|[]]. subst img. simpl. exists pattern, files, c. repeat split; assumption.
  - intros (pattern & files & chunks & Hin & Hf & Hp & Hi & Hn & Himg).
    exists pattern. split; [exact Hin|].
    rewrite scanGlobPattern_pushed, Hf.
    apply in_flat_map. exists (filePath img). split; [exact Hp|].
    rewrite scanGlobFile_eq, Hi, hashAndRecord_pushed, Hn. left. now symmetry.
Qed.

(* ================================================================== *)
(** ** The walk and the paths it builds

    The walk goes down the tree it was handed, while [calculateMD5] is
    called with the path the walk built; on a tree with unique names the
    two agree. *)

Lemma find_entry_In name child entries :
  NoDup (map fst entries) -> In (name, child) entries ->
  find_entry name entries = Some child.
Proof.
  induction entries as [|[n c] rest IH]; intros Hnd Hin; [destruct Hin|].
  simpl in *. inversion Hnd as [|x l Hnotin Hnd']; subst.
  destruct Hin as [Heq|Hin].
  - injection Heq as -> ->. now rewrite String.eqb_refl.
  - destruct (String.eqb n name) eqn:E; [|now apply IH].
    apply String.eqb_eq in E. subst n. exfalso. apply Hnotin.
    change name with (fst (name, child)). now apply in_map.
Qed.

Lemma lookup_app d p q :
  lookup d (p ++ q) = match lookup d p with Some n => lookup n q | None => None end.
Proof.
  revert d; induction p as [|s p IH]; intros d; simpl; [reflexivity|].
  destruct d as [c o|es o|]; try reflexivity.
  destruct (find_entry s es); [apply IH | reflexivity].
Qed.

Lemma reaches_lookup d rel n :
  unique_names d -> reaches d rel n -> lookup d rel = Some n.
Proof.
  intros Hu Hr. induction Hr as [es name child Hin Hs|es name child rel n Hin Hs Hr IH].
  - inversion Hu as [| |es' ok' Hnd Hall]; subst. simpl.
    now rewrite (find_entry_In name child es Hnd Hin).
  - inversion Hu as [| |es' ok' Hnd Hall]; subst. simpl.
    rewrite (find_entry_In name child es Hnd Hin). apply IH.
    rewrite Forall_forall in Hall. apply (Hall _ Hin).
Qed.

Lemma unique_names_lookup d p n :
  unique_names d -> lookup d p = Some n -> unique_names n.
Proof.
  revert d; induction p as [|s p IH]; intros d Hu Hl; simpl in Hl.
  - now injection Hl as <-.
  - destruct d as [c o|es o|]; try discriminate.
    destruct (find_entry s es) as [child|] eqn:Hf; [|discriminate].
    apply (IH child); [|exact Hl].
    inversion Hu as [| |es' ok' Hnd Hall]; subst.
    rewrite Forall_forall in Hall.
    assert (Hin : In (s, child) es).
    { clear -Hf. induction es as [|[n c] rest IH]; [discriminate|]. simpl in Hf.
      destruct (String.eqb n s) eqn:E.
      - apply String.eqb_eq in E. injection Hf as ->. subst. now left.
      - right. now apply IH. }
    apply (Hall _ Hin).
Qed.

(** On a tree with unique names every record of the recursive walk is that
    of the readable file found at the recorded path. *)
Lemma walk_records_are_files h rootPath extensions images img :
  unique_names (fs h) ->
  outcome (scanImageFiles h rootPath extensions) = Ok images ->
  In img images ->
  exists chunks,
    node_at (fs h) (filePath img) = File chunks true
    /\ md5 img = MD5.hexdigest (content chunks).
Proof.
  intros Hu Ho Hin. rewrite scanImageFiles_outcome in Ho. injection Ho as <-.
  apply scanDirectory_records in Hin. destruct Hin as (rel & c & -> & Hr & _).
  exists c. split; [|reflexivity]. cbn [filePath].
  unfold node_at in *. rewrite lookup_app.
  destruct (lookup (fs h) rootPath) as [d|] eqn:Hl; [|inversion Hr].
  rewrite (reaches_lookup d rel (File c true)); [reflexivity| |exact Hr].
  eapply unique_names_lookup; eassumption.
Qed.

(* ================================================================== *)
(** ** What the walkers accept *)

Lemma includes_In x l : includes x l = true <-> In x l.
Proof.
  unfold includes. rewrite existsb_exists. split.
  - intros (y & Hin & Heq). apply String.eqb_eq in Heq. now subst.
  - intros Hin. exists x. split; [exact Hin | apply String.eqb_refl].
Qed.

(** A configuration written in lower case is its own normal form. *)
Lemma normalizedExtensions_lowercase extensions :
  Forall (fun e => toLowerCase e = e) extensions ->
  normalizedExtensions extensions = extensions.
Proof.
  unfold normalizedExtensions. induction 1 as [|e l He _ IH]; simpl; congruence.
Qed.

Lemma defaultImageExtensions_lowercase :
  Forall (fun e => toLowerCase e = e) defaultImageExtensions.
Proof. repeat constructor. Qed.

(** C4. In both modes the files the walker accepts (those it goes on to
    hash) are exactly the reachable files whose extension, in lower case, is
    in the configured set, the set being compared in lower case as well:
    for the recursive walk the files reachable from the root, for the glob
    scan the files some pattern resolved to, filtered again by extension.
    Every record comes from an accepted file. With a configuration written
    in lower case, as the data model has it, the set compared with is the
    configured set itself. *)
Theorem walker_accepts_exactly_matching_extensions h extensions :
  (forall rootPath p,
      In (EvHash p) (events (scanImageFiles h rootPath extensions))
      <-> (exists rel chunks ok,
              p = rootPath ++ rel
              /\ reaches (node_at (fs h) rootPath) rel (File chunks ok))
          /\ In (toLowerCase (extname_path p)) (normalizedExtensions extensions))
  /\ (forall globPatterns workspaceRoot p,
         globPatterns <> [] ->
         In (EvHash p) (events (Part000.scanImageFilesWithGlob h globPatterns workspaceRoot))
         <-> (exists pattern files,
                 In pattern globPatterns
                 /\ findFiles h pattern Part000.nodeModulesExclude = Some files
                 /\ In p files)
             /\ In (toLowerCase (extname_path p))
                   (normalizedExtensions (imageExtensions h)))
  /\ (forall rootPath images img,
         outcome (scanImageFiles h rootPath extensions) = Ok images ->
         In img images ->
         In (EvHash (filePath img)) (events (scanImageFiles h rootPath extensions)))
  /\ (forall globPatterns workspaceRoot images img,
         outcome (Part000.scanImageFilesWithGlob h globPatterns workspaceRoot) = Ok images ->
         In img images ->
         In (EvHash (filePath img))
            (events (Part000.scanImageFilesWithGlob h globPatterns workspaceRoot)))
  /\ (Forall (fun e => toLowerCase e = e) extensions ->
      normalizedExtensions extensions = extensions).
Proof.
  assert (Hrec : forall rootPath images img,
             outcome (scanImageFiles h rootPath extensions) = Ok images ->
             In img images ->
             In (EvHash (filePath img)) (events (scanImageFiles h rootPath extensions))).
  { intros rootPath images img Ho Hin.
    rewrite scanImageFiles_outcome in Ho. injection Ho as <-.
    apply scanDirectory_records in Hin. destruct Hin as (rel & c & -> & Hr & Hi).
    rewrite scanImageFiles_events. apply scanDirectory_hashes.
    now exists rel, c, true. }
  split; [|split; [|split; [exact Hrec|split]]].
  - intros rootPath p. rewrite scanImageFiles_events, scanDirectory_hashes.
    rewrite <- includes_In. split.
    + intros (rel & c & o & Hp & Hr & Hi). split; [now exists rel, c, o | exact Hi].
    + intros ((rel & c & o & Hp & Hr) & Hi). now exists rel, c, o.
  - intros globPatterns workspaceRoot p Hne.
    rewrite (glob_hashes h globPatterns workspaceRoot p Hne), <- includes_In. reflexivity.
  - intros globPatterns workspaceRoot images img Ho Hin.
    destruct globPatterns as [|g rest].
    + rewrite scanImageFilesWithGlob_empty in *.
      assert (Hgen : forall exts,
                 outcome (scanImageFiles h workspaceRoot exts) = Ok images ->
                 In (EvHash (filePath img)) (events (scanImageFiles h workspaceRoot exts))).
      { intros exts Ho'. rewrite scanImageFiles_outcome in Ho'. injection Ho' as <-.
        apply scanDirectory_records in Hin. destruct Hin as (rel & c & -> & Hr & Hi).
        rewrite scanImageFiles_events. apply scanDirectory_hashes.
        now exists rel, c, true. }
      now apply Hgen.
    + assert (Hne : g :: rest <> []) by discriminate.
      apply (glob_hashes h _ workspaceRoot _ Hne).
      apply (glob_records h _ workspaceRoot images img Hne Ho) in Hin.
      destruct Hin as (pattern & files & c & Hin & Hf & Hp & Hi & _).
      split; [now exists pattern, files | exact Hi].
  - apply normalizedExtensions_lowercase.
Qed.

(** On the fixture, with the default extensions: [img/UP.PNG] is accepted,
    [img/notes.txt] is not. *)
Lemma walker_accepts_exactly_matching_extensions_witness :
  normalizedExtensions defaultImageExtensions = defaultImageExtensions
  /\ In (EvHash ["ws"; "img"; "UP.PNG"])
        (events (scanImageFiles (Fixture.host None) ["ws"] defaultImageExtensions))
  /\ ~ In (EvHash ["ws"; "img"; "notes.txt"])
          (events (scanImageFiles (Fixture.host None) ["ws"] defaultImageExtensions)).
Proof.
  destruct (walker_accepts_exactly_matching_extensions
              (Fixture.host None) defaultImageExtensions) as (Hwalk & _ & _ & _ & Hlow).
  split; [apply Hlow, defaultImageExtensions_lowercase|]. split.
  - vm_compute. tauto.
  - intros H. apply Hwalk in H. destruct H as (_ & H).
    vm_compute in H. repeat (destruct H as [H|H]; [discriminate|]). exact H.
Defined.

(* ================================================================== *)
(** ** Excluded directories *)

(** The directories the walk reads: the one it starts at, and the reachable
    directories below it. *)
Lemma scanDirectory_readdirs d :
  forall normalized rootPath dirPath p,
    In (EvReaddir p) (events (scanDirectory normalized rootPath dirPath d))
    -> p = dirPath
       \/ exists rel entries ok, p = dirPath ++ rel /\ reaches d rel (Dir entries ok).
Proof.
  induction d as [chunks ok|entries ok IH|] using node_tree_ind;
    intros normalized rootPath dirPath p; rewrite scanDirectory_events.
  - intros [H|[H|[]]]; [left; now inversion H | discriminate].
  - rewrite Forall_forall in IH. destruct ok.
    + intros [H|H]; [left; now inversion H|]. right.
      apply in_flat_map in H. destruct H as ([name child] & Hin & He).
      rewrite scanEntry_eq in He.
      destruct (skipped name) eqn:Hs; [destruct He|].
      destruct child as [c o|es o|].
      * destruct (includes _ normalized); [|destruct He].
        rewrite hashAndRecord_events in He.
        destruct He as [He|He]; [discriminate|].
        destruct o; destruct He as [He|[]]; discriminate.
      * apply (IH _ Hin) in He. simpl in He. destruct He as [->|(rel & es' & o' & -> & Hr)].
        -- exists [name], es, o. split; [reflexivity | now apply reaches_entry].
        -- exists (name :: rel), es', o'. split.
           ++ unfold join_entry. now rewrite <- app_assoc.
           ++ now apply reaches_below with (child := Dir es o).
      * destruct He.
    + intros [H|[H|[]]]; [left; now inversion H | discriminate].
  - intros [H|[H|[]]]; [left; now inversion H | discriminate].
Qed.

Lemma existsb_removelast {A} (f : A -> bool) (l : list A) :
  existsb f l = false -> existsb f (removelast l) = false.
Proof.
  induction l as [|x [|y r] IH]; simpl; intros H; try reflexivity.
  apply orb_false_iff in H. destruct H as (Hx & Hr).
  rewrite Hx. simpl. apply IH. exact Hr.
Qed.

Lemma existsb_false_weaken {A} (f g : A -> bool) (l : list A) :
  (forall x, f x = true -> g x = true) -> existsb g l = false -> existsb f l = false.
Proof.
  intros Hfg Hg. destruct (existsb f l) eqn:Hf; [|reflexivity].
  apply (existsb_weaken f g l Hfg) in Hf. congruence.
Qed.

Lemma node_modules_skipped name : String.eqb "node_modules" name = true -> skipped name = true.
Proof. intros H. apply String.eqb_eq in H. now subst. Qed.

(** A path with no passed-over segment lies under no directory called
    [node_modules] and under no directory whose name starts with a dot. *)
Lemma no_skipped_segment_under rel :
  has_skipped_segment rel = false ->
  under_node_modules rel = false /\ under_dot_directory rel = false.
Proof.
  unfold has_skipped_segment, under_node_modules, under_dot_directory, directories.
  intros H. apply existsb_removelast in H. split.
  - revert H. apply existsb_false_weaken, node_modules_skipped.
  - revert H. apply existsb_false_weaken, skipped_dot.
Qed.

Lemma hashAndRecord_walk_events rootPath fullPath n :
  forallb walk_event (events (hashAndRecord rootPath fullPath n)) = true.
Proof.
  rewrite hashAndRecord_events. destruct n as [c [|]|es o|]; reflexivity.
Qed.

Lemma forallb_flat_map {A B} (f : B -> bool) (g : A -> list B) (l : list A) :
  (forall x, In x l -> forallb f (g x) = true) -> forallb f (flat_map g l) = true.
Proof.
  induction l as [|x r IH]; intros H; simpl; [reflexivity|].
  rewrite forallb_app, (H x (or_introl eq_refl)), IH; [reflexivity|].
  intros y Hy. apply H. now right.
Qed.

(** The recursive walk neither tests for existence nor resolves patterns. *)
Lemma scanDirectory_walk_events d :
  forall normalized rootPath dirPath,
    forallb walk_event (events (scanDirectory normalized rootPath dirPath d)) = true.
Proof.
  induction d as [chunks ok|entries ok IH|] using node_tree_ind;
    intros normalized rootPath dirPath; rewrite scanDirectory_events; try reflexivity.
  destruct ok; [|reflexivity]. cbn [forallb walk_event andb].
  rewrite Forall_forall in IH.
  apply forallb_flat_map. intros [name child] Hin. rewrite scanEntry_eq.
  destruct (skipped name); [reflexivity|].
  destruct child as [c o|es o|]; try reflexivity.
  - destruct (includes _ _); [apply hashAndRecord_walk_events | reflexivity].
  - apply (IH _ Hin).
Qed.

Lemma glob_findFiles_events h globPatterns workspaceRoot incl excl :
  In (EvFindFiles incl excl)
     (events (Part000.scanImageFilesWithGlob h globPatterns workspaceRoot)) ->
  In incl globPatterns /\ excl = Part000.nodeModulesExclude.
Proof.
  destruct globPatterns as [|g rest].
  - rewrite scanImageFilesWithGlob_empty, scanImageFiles_events. intros H.
    pose proof (scanDirectory_walk_events (node_at (fs h) workspaceRoot)
                  (normalizedExtensions (imageExtensions h)) workspaceRoot workspaceRoot) as Hw.
    rewrite forallb_forall in Hw. apply Hw in H. discriminate.
  - assert (Hne : g :: rest <> []) by discriminate.
    destruct (scanImageFilesWithGlob_patterns h _ workspaceRoot Hne) as (He & _).
    rewrite He, in_flat_map. intros (pattern & Hin & H).
    rewrite scanGlobPattern_events in H. destruct H as [H|H].
    + inversion H; subst. now split.
    + exfalso. destruct (findFiles h pattern _) as [files|].
      * apply in_flat_map in H. destruct H as (f & _ & H).
        rewrite scanGlobFile_eq in H. destruct (includes _ _); [|destruct H].
        pose proof (hashAndRecord_walk_events workspaceRoot f (node_at (fs h) f)) as Hw.
        rewrite forallb_forall in Hw. apply Hw in H. discriminate.
      * destruct H as [H|[]]; discriminate.
Qed.

(** C5, as amended. In the recursive walk both exclusions hold at every
    level below the scanned root: no directory is read, and no file is
    recorded, whose path below the root goes through a directory called
    [node_modules] or one whose name starts with a dot. In the glob scan the
    only exclusion is the pattern for [node_modules] handed to every
    [findFiles] call; where [findFiles] honours it, no record lies under a
    directory called [node_modules]. Directories whose name starts with a
    dot are not excluded there. *)
Theorem exclusions_by_mode h :
  (forall rootPath extensions p,
      In (EvReaddir p) (events (scanImageFiles h rootPath extensions)) ->
      exists rel, p = rootPath ++ rel /\ has_skipped_segment rel = false)
  /\ (forall rootPath extensions images img,
         outcome (scanImageFiles h rootPath extensions) = Ok images ->
         In img images ->
         exists rel,
           filePath img = rootPath ++ rel
           /\ under_node_modules rel = false /\ under_dot_directory rel = false)
  /\ (forall globPatterns workspaceRoot incl excl,
         In (EvFindFiles incl excl)
            (events (Part000.scanImageFilesWithGlob h globPatterns workspaceRoot)) ->
         excl = Part000.nodeModulesExclude)
  /\ (honours_exclusion h ->
      forall globPatterns workspaceRoot images img,
        globPatterns <> [] ->
        outcome (Part000.scanImageFilesWithGlob h globPatterns workspaceRoot) = Ok images ->
        In img images ->
        under_node_modules (filePath img) = false).
Proof.
  split; [|split; [|split]].
  - intros rootPath extensions p H. rewrite scanImageFiles_events in H.
    apply scanDirectory_readdirs in H. destruct H as [->|(rel & es & o & -> & Hr)].
    + exists []. split; [now rewrite app_nil_r | reflexivity].
    + exists rel. split; [reflexivity | eapply reaches_no_skipped; eassumption].
  - intros rootPath extensions images img Ho Hin.
    rewrite scanImageFiles_outcome in Ho. injection Ho as <-.
    apply scanDirectory_records in Hin. destruct Hin as (rel & c & -> & Hr & _).
    exists rel. split; [reflexivity|].
    apply no_skipped_segment_under. eapply reaches_no_skipped; eassumption.
  - intros globPatterns workspaceRoot incl excl H.
    now apply glob_findFiles_events in H.
  - intros Hex globPatterns workspaceRoot images img Hne Ho Hin.
    apply (glob_records h _ workspaceRoot images img Hne Ho) in Hin.
    destruct Hin as (pattern & files & c & _ & Hf & Hp & _).
    apply Hex in Hf. rewrite Forall_forall in Hf. now apply Hf.
Qed.

Lemma fixture_honours_exclusion paths : honours_exclusion (Fixture.host paths).
Proof.
  intros incl files. cbn [findFiles Fixture.host]. unfold Fixture.find.
  destruct (String.eqb incl "**/*.png");
    [|destruct (String.eqb incl "img/*"); [|destruct (String.eqb incl "[")]];
    intros H; try discriminate; injection H as <-; repeat constructor.
Qed.

(** On the fixture, whose [findFiles] honours the exclusion, the copy the
    glob scan of every [.png] records does not lie under [node_modules]. *)
Lemma exclusions_by_mode_witness :
  honours_exclusion (Fixture.host (Some ["**/*.png"]))
  /\ under_node_modules
       (filePath (mkImageInfo ["ws"; "img"; "copy.png"] "900150983cd24fb0d6963f7d28e17f72"
                              ["img"; "copy.png"])) = false.
Proof.
  split; [apply fixture_honours_exclusion|].
  destruct (exclusions_by_mode (Fixture.host (Some ["**/*.png"]))) as (_ & _ & _ & H).
  eapply (H (fixture_honours_exclusion _) ["**/*.png"] ["ws"]).
  - discriminate.
  - vm_compute. reflexivity.
  - simpl. tauto.
Defined.

(** C5 as stated fails in the glob scan: on the fixture the pattern for
    every [.png] resolves to [.hidden/h.png], and the file is recorded
    although it lies under a directory whose name starts with a dot. *)
Lemma glob_scan_records_under_dot_directory :
  ~ (forall h globPatterns workspaceRoot images img,
        outcome (Part000.scanImageFilesWithGlob h globPatterns workspaceRoot) = Ok images ->
        In img images ->
        under_node_modules (filePath img) = false
        /\ under_dot_directory (filePath img) = false).
Proof.
  intros H.
  specialize (H (Fixture.host (Some ["**/*.png"])) ["**/*.png"] ["ws"] _
                (mkImageInfo ["ws"; ".hidden"; "h.png"] "900150983cd24fb0d6963f7d28e17f72"
                             [".hidden"; "h.png"])
                eq_refl).
  destruct H as (_ & H); [vm_compute; tauto | discriminate H].
Qed.

(* ================================================================== *)
(** ** The search roots of extension.ts *)

Lemma scanRoots_eq h roots extensions :
  Extension.scanRoots h roots extensions
  = with_images (forEach roots (scanRootBody h extensions)).
Proof. reflexivity. Qed.

Lemma existsSync_run h p :
  existsSync h p = ([EvExistsSync p], [], Ok (root_exists h p)).
Proof. reflexivity. Qed.

Lemma scanImageFiles_run h rootPath extensions :
  scanImageFiles h rootPath extensions
  = (events_under h extensions rootPath, [], Ok (records_under h extensions rootPath)).
Proof.
  pose proof (scanImageFiles_events h rootPath extensions) as He.
  pose proof (scanImageFiles_outcome h rootPath extensions) as Ho.
  pose proof (scanImageFiles_pushed h rootPath extensions) as Hp.
  destruct (scanImageFiles h rootPath extensions) as [[t p] r].
  unfold events, pushed, outcome in *. simpl in *. now subst.
Qed.

Lemma scanRootBody_run h extensions searchRoot :
  scanRootBody h extensions searchRoot
  = (EvExistsSync searchRoot ::
       (if root_exists h searchRoot then events_under h extensions searchRoot else []),
     (if root_exists h searchRoot then records_under h extensions searchRoot else []),
     Ok tt).
Proof.
  unfold scanRootBody. rewrite existsSync_run.
  destruct (root_exists h searchRoot); cbn [bind]; [|reflexivity].
  rewrite scanImageFiles_run. cbn. now rewrite !app_nil_r.
Qed.

Lemma scanRoots_run h roots extensions :
  Extension.scanRoots h roots extensions
  = (flat_map (fun r => EvExistsSync r ::
                 (if root_exists h r then events_under h extensions r else [])) roots,
     [],
     Ok (flat_map (fun r => if root_exists h r then records_under h extensions r else [])
                  roots)).
Proof.
  rewrite scanRoots_eq.
  destruct (forEach_succeeds roots (scanRootBody h extensions)) as (Ho & He & Hp).
  { intros r _. now rewrite scanRootBody_run. }
  pose proof (events_with_images (forEach roots (scanRootBody h extensions))) as He'.
  pose proof (outcome_with_images (forEach roots (scanRootBody h extensions))) as Ho'.
  pose proof (pushed_with_images (forEach roots (scanRootBody h extensions))) as Hp'.
  rewrite Ho in Ho'. rewrite He in He'. rewrite Hp in Ho'.
  destruct (with_images _) as [[t p] r]. unfold events, pushed, outcome in *. simpl in *.
  subst.
  rewrite (flat_map_ext (fun x => fst (fst (scanRootBody h extensions x)))
             (fun r => EvExistsSync r ::
                (if root_exists h r then events_under h extensions r else [])))
    by (intros r; now rewrite scanRootBody_run).
  rewrite (flat_map_ext (fun x => snd (fst (scanRootBody h extensions x)))
             (fun r => if root_exists h r then records_under h extensions r else []))
    by (intros r; now rewrite scanRootBody_run).
  reflexivity.
Qed.

(* ================================================================== *)
(** ** Resolving the outcome *)

Lemma resolveDuplicates_spec fingerprint targetPath allImages :
  exists u,
    resolveDuplicates fingerprint targetPath allImages = ret u
    /\ outcome_of_ui u = resolveOutcome_spec fingerprint targetPath allImages.
Proof.
  unfold resolveDuplicates, resolveOutcome_spec, showDuplicatesQuickPick,
    findDuplicates, withoutTarget.
  destruct (filter _ allImages) as [|m ms] eqn:Hm; cbn [List.length Nat.eqb].
  - now exists (ShowInfo MsgNoDuplicates).
  - destruct (filter _ (m :: ms)) as [|o os] eqn:Ho; cbn [List.length Nat.eqb].
    + now exists (ShowInfo MsgNoOtherDuplicates).
    + now exists (ShowQuickPick (o :: os)).
Qed.

Lemma path_eqb_eq p q : path_eqb p q = true <-> p = q.
Proof.
  unfold path_eqb. destruct (list_eq_dec string_dec p q); split; congruence.
Qed.

(** What the specification's outcome lists: records with the target's
    fingerprint, none of them at the target's path, at least one. *)
Lemma resolveOutcome_spec_others fingerprint targetPath records others :
  resolveOutcome_spec fingerprint targetPath records = DuplicatesFound others ->
  others <> []
  /\ Forall (fun r => In r records /\ md5 r = fingerprint /\ filePath r <> targetPath) others.
Proof.
  unfold resolveOutcome_spec.
  destruct (filter _ records) as [|m ms] eqn:Hm; [discriminate|].
  destruct (filter _ (m :: ms)) as [|o os] eqn:Ho; [discriminate|].
  intros H. injection H as <-. split; [discriminate|].
  apply Forall_forall. intros r Hr. rewrite <- Ho in Hr.
  apply filter_In in Hr. destruct Hr as (Hr & Hne). rewrite <- Hm in Hr.
  apply filter_In in Hr. destruct Hr as (Hr & Heq).
  apply String.eqb_eq in Heq. repeat split; try assumption.
  intros Hp. apply path_eqb_eq in Hp. rewrite Hp in Hne. discriminate.
Qed.

Lemma resolveDuplicates_run fingerprint targetPath allImages :
  resolveDuplicates fingerprint targetPath allImages
  = ret (resolve_ui fingerprint targetPath allImages).
Proof.
  destruct (resolveDuplicates_spec fingerprint targetPath allImages) as (u & Hu & _).
  unfold resolve_ui. now rewrite Hu.
Qed.

Lemma resolve_ui_spec fingerprint targetPath allImages :
  outcome_of_ui (resolve_ui fingerprint targetPath allImages)
  = resolveOutcome_spec fingerprint targetPath allImages.
Proof.
  destruct (resolveDuplicates_spec fingerprint targetPath allImages) as (u & Hu & Hs).
  unfold resolve_ui. now rewrite Hu.
Qed.

Lemma calculateMD5_run filePath n :
  calculateMD5 filePath n
  = ([EvHash filePath], [],
     match n with
     | File chunks true => Ok (MD5.hexdigest (content chunks))
     | _ => Throw (ErrRead filePath)
     end).
Proof.
  pose proof (calculateMD5_events filePath n) as He.
  pose proof (calculateMD5_pushed filePath n) as Hp.
  pose proof (calculateMD5_outcome filePath n) as Ho.
  destruct (calculateMD5 filePath n) as [[t p] r].
  unfold events, pushed, outcome in *. simpl in *. now subst.
Qed.

(* ================================================================== *)
(** ** The runs of the two handlers, phase by phase *)

(** extension.ts: a target that is missing or not an image ends the run
    after the existence test. *)
Lemma extension_run_invalid h targetPath f :
  validate_target h targetPath = Some f ->
  Extension.checkDuplicates h (Some targetPath)
  = ([EvExistsSync targetPath], [], Ok (ShowError (message_of_fatal f))).
Proof.
  unfold validate_target, Extension.checkDuplicates. cbn [resolveUri].
  rewrite existsSync_run.
  destruct (root_exists h targetPath); cbn [negb bind try_catch ret app].
  - destruct (includes _ _); cbn [negb]; [discriminate|].
    intros H. injection H as <-. reflexivity.
  - intros H. injection H as <-. reflexivity.
Qed.

(** extension.ts: a valid target is hashed next, before anything is known
    about the workspace. *)
Lemma extension_run_valid h targetPath :
  validate_target h targetPath = None ->
  Extension.checkDuplicates h (Some targetPath)
  = match node_at (fs h) targetPath with
    | File chunks true =>
        match workspaceFolders h with
        | [] => ([EvExistsSync targetPath; EvHash targetPath], [],
                 Ok (ShowError MsgNoWorkspace))
        | workspaceRoot :: _ =>
            (EvExistsSync targetPath :: EvHash targetPath
               :: extension_scan_events h workspaceRoot,
             [],
             Ok (resolve_ui (MD5.hexdigest (content chunks)) targetPath
                            (extension_records h workspaceRoot)))
        end
    | _ => ([EvExistsSync targetPath; EvHash targetPath;
             EvConsoleError (LogCheckFailed (ErrRead targetPath))], [],
            Ok (ShowError (MsgError (ErrRead targetPath))))
    end.
Proof.
  unfold validate_target, Extension.checkDuplicates. cbn [resolveUri].
  rewrite existsSync_run.
  destruct (root_exists h targetPath); cbn [negb bind try_catch ret app]; [|discriminate].
  destruct (includes _ _); cbn [negb]; [|discriminate]. intros _.
  rewrite calculateMD5_run.
  destruct (node_at (fs h) targetPath) as [chunks [|]|es o|]; try reflexivity.
  destruct (workspaceFolders h) as [|workspaceRoot rest]; [reflexivity|].
  cbn [bind]. rewrite scanRoots_run. cbn [bind]. rewrite resolveDuplicates_run.
  cbn. rewrite !app_nil_r. reflexivity.
Qed.

(** part_000: a run that fails the validation ends after the existence
    test. *)
Lemma part000_run_invalid h targetPath f :
  validate_spec h targetPath = Some f ->
  Part000.checkDuplicates h (Some targetPath)
  = ([EvExistsSync targetPath], [], Ok (ShowError (message_of_fatal f))).
Proof.
  unfold validate_spec, Part000.checkDuplicates. cbn [resolveUri].
  rewrite existsSync_run.
  destruct (root_exists h targetPath); cbn [negb bind try_catch ret app].
  - destruct (includes _ _); cbn [negb].
    + destruct (workspaceFolders h); [|discriminate].
      intros H. injection H as <-. reflexivity.
    + intros H. injection H as <-. reflexivity.
  - intros H. injection H as <-. reflexivity.
Qed.

(** part_000: once validated, the target is hashed, then the candidates are
    scanned, then the outcome is resolved. *)
Lemma part000_run_valid h targetPath :
  validate_spec h targetPath = None ->
  exists workspaceRoot rest scanned images,
    workspaceFolders h = workspaceRoot :: rest
    /\ Part000.scanImageFilesWithGlob h (searchPaths h) workspaceRoot
       = (scanned, [], Ok images)
    /\ Part000.checkDuplicates h (Some targetPath)
       = match node_at (fs h) targetPath with
         | File chunks true =>
             (EvExistsSync targetPath :: EvReport PHashing :: EvHash targetPath
                :: EvReport PScanning :: scanned ++ [EvReport PMatching],
              [],
              Ok (resolve_ui (MD5.hexdigest (content chunks)) targetPath images))
         | _ => ([EvExistsSync targetPath; EvReport PHashing; EvHash targetPath;
                  EvConsoleError (LogCheckFailed (ErrRead targetPath))], [],
                 Ok (ShowError (MsgError (ErrRead targetPath))))
         end.
Proof.
  unfold validate_spec, Part000.checkDuplicates. cbn [resolveUri].
  rewrite existsSync_run.
  destruct (root_exists h targetPath); cbn [negb bind try_catch ret app]; [|discriminate].
  destruct (includes _ _); cbn [negb]; [|discriminate].
  destruct (workspaceFolders h) as [|workspaceRoot rest]; [discriminate|]. intros _.
  assert (Hscan : exists scanned images,
             Part000.scanImageFilesWithGlob h (searchPaths h) workspaceRoot
             = (scanned, [], Ok images)).
  { destruct (searchPaths h) as [|g gs].
    - rewrite scanImageFilesWithGlob_empty, scanImageFiles_run. eauto.
    - assert (Hne : g :: gs <> []) by discriminate.
      destruct (scanImageFilesWithGlob_patterns h _ workspaceRoot Hne) as (He & Ho).
      unfold Part000.scanImageFilesWithGlob in *. cbn [List.length Nat.eqb] in *.
      pose proof (pushed_with_images
                    (forEach (g :: gs)
                             (Part000.scanGlobPattern
                                h (normalizedExtensions (imageExtensions h)) workspaceRoot)))
        as Hp.
      destruct (with_images _) as [[t p] r].
      unfold events, pushed, outcome in *. simpl in *. subst. eauto. }
  destruct Hscan as (scanned & images & Hscan).
  exists workspaceRoot, rest, scanned, images. split; [reflexivity|]. split; [exact Hscan|].
  rewrite calculateMD5_run.
  destruct (node_at (fs h) targetPath) as [chunks [|]|es o|]; try reflexivity.
  cbn [bind emit app]. rewrite Hscan. cbn [bind emit app]. rewrite resolveDuplicates_run.
  cbn. rewrite ?app_nil_r. reflexivity.
Qed.

Lemma lookup_file_valid h targetPath chunks ok :
  lookup (fs h) targetPath = Some (File chunks ok) ->
  root_exists h targetPath = true /\ node_at (fs h) targetPath = File chunks ok.
Proof. intros H. unfold root_exists, node_at. now rewrite H. Qed.

Lemma outcome_of_fatal_message f :
  outcome_of_ui (ShowError (message_of_fatal f)) = Fatal f.
Proof. now destruct f. Qed.

(* ================================================================== *)
(** ** The claims about the orchestration *)

(** C1. A run that reaches the resolve phase (the target exists, has an
    image extension and could be hashed, a workspace is open) ends, in both
    variants, in the outcome the specification computes from the scanned
    records: none found when no record has the target's fingerprint, only
    the target itself when all that have it sit at the target's path, the
    others otherwise. The list reported is never empty and holds no record
    at the target's path. *)
Theorem resolve_outcome_is_one_of_three h targetPath chunks workspaceRoot rest :
  lookup (fs h) targetPath = Some (File chunks true) ->
  includes (toLowerCase (extname_path targetPath)) (imageExtensions h) = true ->
  workspaceFolders h = workspaceRoot :: rest ->
  let fingerprint := MD5.hexdigest (content chunks) in
  (exists records,
      outcome (Extension.scanRoots
                 h (Extension.searchRoots workspaceRoot (searchPaths h)) (imageExtensions h))
      = Ok records
      /\ runScan_extension h targetPath
         = resolveOutcome_spec fingerprint targetPath records)
  /\ (exists records,
         outcome (Part000.scanImageFilesWithGlob h (searchPaths h) workspaceRoot)
         = Ok records
         /\ runScan_part000 h targetPath
            = resolveOutcome_spec fingerprint targetPath records)
  /\ (forall others,
         runScan_extension h targetPath = DuplicatesFound others
         \/ runScan_part000 h targetPath = DuplicatesFound others ->
         others <> []
         /\ Forall (fun r => md5 r = fingerprint /\ filePath r <> targetPath) others).
Proof.
  intros Hl Hi Hw fingerprint.
  destruct (lookup_file_valid _ _ _ _ Hl) as (Hex & Hn).
  assert (Hvt : validate_target h targetPath = None).
  { unfold validate_target. now rewrite Hex, Hi. }
  assert (Hvs : validate_spec h targetPath = None).
  { unfold validate_spec. now rewrite Hex, Hi, Hw. }
  assert (HE : runScan_extension h targetPath
               = resolveOutcome_spec fingerprint targetPath
                                     (extension_records h workspaceRoot)).
  { unfold runScan_extension, outcome_of_run.
    rewrite (extension_run_valid h targetPath Hvt), Hn, Hw. cbn [outcome snd].
    apply resolve_ui_spec. }
  destruct (part000_run_valid h targetPath Hvs) as (w & r & scanned & images & Hw' & Hscan & Hrun).
  rewrite Hw in Hw'. injection Hw' as <- <-.
  assert (HP : runScan_part000 h targetPath
               = resolveOutcome_spec fingerprint targetPath images).
  { unfold runScan_part000, outcome_of_run. rewrite Hrun, Hn. cbn [outcome snd].
    apply resolve_ui_spec. }
  split; [|split].
  - exists (extension_records h workspaceRoot). split; [|exact HE].
    now rewrite scanRoots_run.
  - exists images. split; [|exact HP]. now rewrite Hscan.
  - intros others [H|H]; [rewrite HE in H | rewrite HP in H];
      apply resolveOutcome_spec_others in H; destruct H as (Hne & Hall);
      (split; [exact Hne|]); revert Hall; apply Forall_impl; tauto.
Qed.

(** On the fixture, scanning the whole workspace from [t.png]. *)
Lemma resolve_outcome_is_one_of_three_witness :
  exists records,
    outcome (Extension.scanRoots (Fixture.host None)
               (Extension.searchRoots ["ws"] (searchPaths (Fixture.host None)))
               (imageExtensions (Fixture.host None))) = Ok records
    /\ runScan_extension (Fixture.host None) Fixture.target
       = resolveOutcome_spec (MD5.hexdigest (content [Fixture.bytes "abc"]))
                             Fixture.target records.
Proof.
  apply (resolve_outcome_is_one_of_three
           (Fixture.host None) Fixture.target [Fixture.bytes "abc"] ["ws"] []);
    reflexivity.
Defined.

(** C3, as amended. In both variants the test that the target exists and
    the test of its extension come before the target is hashed, and a run
    that fails one of them does nothing but the existence test: neither the
    hasher nor the walker is called. In part_000 the test for an open
    workspace comes before the hashing as well. In extension.ts it comes
    after: a valid target is hashed first, and with no workspace open the
    run then ends, before any enumeration, in the no-workspace error. *)
Theorem validation_precedes_hashing h targetPath :
  (forall f,
      validate_target h targetPath = Some f ->
      runScan_extension h targetPath = Fatal f
      /\ events (Extension.checkDuplicates h (Some targetPath)) = [EvExistsSync targetPath])
  /\ (forall f,
         validate_spec h targetPath = Some f ->
         runScan_part000 h targetPath = Fatal f
         /\ events (Part000.checkDuplicates h (Some targetPath)) = [EvExistsSync targetPath])
  /\ (validate_target h targetPath = None ->
      (exists later,
          events (Extension.checkDuplicates h (Some targetPath))
          = EvExistsSync targetPath :: EvHash targetPath :: later)
      /\ (workspaceFolders h = [] ->
          readable (node_at (fs h) targetPath) = true ->
          runScan_extension h targetPath = Fatal NoWorkspace
          /\ events (Extension.checkDuplicates h (Some targetPath))
             = [EvExistsSync targetPath; EvHash targetPath])).
Proof.
  split; [|split].
  - intros f Hv. unfold runScan_extension, outcome_of_run.
    rewrite (extension_run_invalid h targetPath f Hv). cbn [outcome events fst snd].
    split; [apply outcome_of_fatal_message | reflexivity].
  - intros f Hv. unfold runScan_part000, outcome_of_run.
    rewrite (part000_run_invalid h targetPath f Hv). cbn [outcome events fst snd].
    split; [apply outcome_of_fatal_message | reflexivity].
  - intros Hv. unfold runScan_extension, outcome_of_run.
    rewrite (extension_run_valid h targetPath Hv). split.
    + destruct (node_at (fs h) targetPath) as [c [|]|es o|]; try (eexists; reflexivity).
      destruct (workspaceFolders h); eexists; reflexivity.
    + intros Hw Hr. rewrite Hw.
      destruct (node_at (fs h) targetPath) as [c [|]|es o|]; try discriminate.
      split; reflexivity.
Qed.

(** On the fixture: a missing target ends both runs after the existence
    test. *)
Lemma validation_precedes_hashing_witness :
  runScan_extension (Fixture.host None) ["ws"; "missing.png"] = Fatal FileNotFound
  /\ events (Extension.checkDuplicates (Fixture.host None) (Some ["ws"; "missing.png"]))
     = [EvExistsSync ["ws"; "missing.png"]].
Proof.
  destruct (validation_precedes_hashing (Fixture.host None) ["ws"; "missing.png"])
    as (H & _).
  apply H. reflexivity.
Defined.

(** C3 as stated fails on extension.ts: with no workspace folder open the
    run ends in the no-workspace error, and the target has been hashed by
    then. *)
Lemma extension_hashes_before_workspace_check :
  ~ (forall h targetPath,
        runScan_extension h targetPath = Fatal NoWorkspace ->
        ~ In (EvHash targetPath) (events (Extension.checkDuplicates h (Some targetPath)))).
Proof.
  intros H.
  apply (H Fixture.host_no_workspace Fixture.target); [reflexivity|].
  vm_compute. tauto.
Qed.

Lemma scanImageFilesWithGlob_succeeds h globPatterns workspaceRoot :
  succeeds (Part000.scanImageFilesWithGlob h globPatterns workspaceRoot).
Proof.
  unfold succeeds. destruct globPatterns as [|g gs].
  - rewrite scanImageFilesWithGlob_empty, scanImageFiles_outcome. eexists; reflexivity.
  - assert (Hne : g :: gs <> []) by discriminate.
    destruct (scanImageFilesWithGlob_patterns h _ workspaceRoot Hne) as (_ & Ho).
    eexists; exact Ho.
Qed.

(** C7. When the hashing of the target itself fails (the target exists and
    has an image extension, but its stream cannot be read to the end), the
    error reaches the handler's own [catch]: the run ends in the error shown
    to the user, and nothing was enumerated: no directory read, no pattern
    resolved, no candidate hashed. In part_000 this needs a workspace to be
    open, since the workspace is tested before the hashing there. A
    candidate that cannot be hashed does not make a scan fail. *)
Theorem target_hash_failure_is_fatal h targetPath :
  root_exists h targetPath = true ->
  includes (toLowerCase (extname_path targetPath)) (imageExtensions h) = true ->
  readable (node_at (fs h) targetPath) = false ->
  (runScan_extension h targetPath = Fatal IOError
   /\ events (Extension.checkDuplicates h (Some targetPath))
      = [EvExistsSync targetPath; EvHash targetPath;
         EvConsoleError (LogCheckFailed (ErrRead targetPath))]
   /\ existsb enumeration_event
              (events (Extension.checkDuplicates h (Some targetPath))) = false)
  /\ (workspaceFolders h <> [] ->
      runScan_part000 h targetPath = Fatal IOError
      /\ events (Part000.checkDuplicates h (Some targetPath))
         = [EvExistsSync targetPath; EvReport PHashing; EvHash targetPath;
            EvConsoleError (LogCheckFailed (ErrRead targetPath))]
      /\ existsb enumeration_event
                 (events (Part000.checkDuplicates h (Some targetPath))) = false)
  /\ (forall rootPath extensions, succeeds (scanImageFiles h rootPath extensions))
  /\ (forall globPatterns workspaceRoot,
         succeeds (Part000.scanImageFilesWithGlob h globPatterns workspaceRoot)).
Proof.
  intros Hex Hi Hr.
  assert (Hvt : validate_target h targetPath = None).
  { unfold validate_target. now rewrite Hex, Hi. }
  split; [|split; [|split]].
  - unfold runScan_extension, outcome_of_run.
    rewrite (extension_run_valid h targetPath Hvt).
    destruct (node_at (fs h) targetPath) as [c [|]|es o|]; try discriminate;
      repeat split; reflexivity.
  - intros Hw.
    assert (Hvs : validate_spec h targetPath = None).
    { unfold validate_spec. rewrite Hex, Hi. cbn [negb].
      destruct (workspaceFolders h); [contradiction | reflexivity]. }
    destruct (part000_run_valid h targetPath Hvs) as (w & r & scanned & images & _ & _ & Hrun).
    unfold runScan_part000, outcome_of_run. rewrite Hrun.
    destruct (node_at (fs h) targetPath) as [c [|]|es o|]; try discriminate;
      repeat split; reflexivity.
  - intros rootPath extensions. unfold succeeds.
    rewrite scanImageFiles_outcome. eexists; reflexivity.
  - apply scanImageFilesWithGlob_succeeds.
Qed.

(** On the fixture: [img/bad.png], whose stream fails, as the target. *)
Lemma target_hash_failure_is_fatal_witness :
  runScan_extension (Fixture.host None) Fixture.bad_target = Fatal IOError
  /\ events (Extension.checkDuplicates (Fixture.host None) (Some Fixture.bad_target))
     = [EvExistsSync Fixture.bad_target; EvHash Fixture.bad_target;
        EvConsoleError (LogCheckFailed (ErrRead Fixture.bad_target))].
Proof.
  destruct (target_hash_failure_is_fatal (Fixture.host None) Fixture.bad_target)
    as ((H1 & H2 & _) & _); [reflexivity | reflexivity | reflexivity | now split].
Defined.

(** C6. The failures met while scanning never end the scan. The recursive
    walk, the glob scan and the scan of the search roots always return their
    records; these are exactly the records of the files that could be
    reached (or that a pattern resolved to) and hashed, so that a file whose
    stream fails, a directory that cannot be read and a pattern that cannot
    be resolved leave out what they cover and nothing else. A run whose
    target was validated and hashed ends in one of the three outcomes. *)
Theorem recoverable_failures_never_abort h :
  (forall rootPath extensions,
      exists images,
        outcome (scanImageFiles h rootPath extensions) = Ok images
        /\ forall img,
            In img images
            <-> exists rel chunks,
                img = mkImageInfo (rootPath ++ rel) (MD5.hexdigest (content chunks))
                                  (relative rootPath (rootPath ++ rel))
                /\ reaches (node_at (fs h) rootPath) rel (File chunks true)
                /\ includes (toLowerCase (extname_path (rootPath ++ rel)))
                            (normalizedExtensions extensions) = true)
  /\ (forall globPatterns workspaceRoot,
         exists images,
           outcome (Part000.scanImageFilesWithGlob h globPatterns workspaceRoot) = Ok images
           /\ (globPatterns <> [] ->
               forall img,
                 In img images
                 <-> exists pattern files chunks,
                     In pattern globPatterns
                     /\ findFiles h pattern Part000.nodeModulesExclude = Some files
                     /\ In (filePath img) files
                     /\ includes (toLowerCase (extname_path (filePath img)))
                                 (normalizedExtensions (imageExtensions h)) = true
                     /\ node_at (fs h) (filePath img) = File chunks true
                     /\ img = mkImageInfo (filePath img) (MD5.hexdigest (content chunks))
                                          (relative workspaceRoot (filePath img))))
  /\ (forall roots extensions, succeeds (Extension.scanRoots h roots extensions))
  /\ (forall targetPath,
         root_exists h targetPath = true ->
         includes (toLowerCase (extname_path targetPath)) (imageExtensions h) = true ->
         readable (node_at (fs h) targetPath) = true ->
         workspaceFolders h <> [] ->
         definite (runScan_extension h targetPath)
         /\ definite (runScan_part000 h targetPath)).
Proof.
  split; [|split; [|split]].
  - intros rootPath extensions. eexists. split; [apply scanImageFiles_outcome|].
    intros img. apply scanDirectory_records.
  - intros globPatterns workspaceRoot.
    destruct (scanImageFilesWithGlob_succeeds h globPatterns workspaceRoot) as (images & Ho).
    exists images. split; [exact Ho|]. intros Hne img.
    now apply glob_records.
  - intros roots extensions. unfold succeeds. rewrite scanRoots_run. eexists; reflexivity.
  - intros targetPath Hex Hi Hr Hw.
    assert (Hvt : validate_target h targetPath = None).
    { unfold validate_target. now rewrite Hex, Hi. }
    assert (Hvs : validate_spec h targetPath = None).
    { unfold validate_spec. rewrite Hex, Hi. cbn [negb].
      destruct (workspaceFolders h); [contradiction | reflexivity]. }
    assert (Hdef : forall fp records, definite (resolveOutcome_spec fp targetPath records)).
    { intros fp records. unfold resolveOutcome_spec.
      destruct (filter _ records) as [|m ms]; [exact I|].
      destruct (filter _ (m :: ms)); exact I. }
    split.
    + unfold runScan_extension, outcome_of_run.
      rewrite (extension_run_valid h targetPath Hvt).
      destruct (node_at (fs h) targetPath) as [c [|]|es o|]; try discriminate.
      destruct (workspaceFolders h) as [|w ws]; [contradiction|].
      cbn [outcome snd]. rewrite resolve_ui_spec. apply Hdef.
    + destruct (part000_run_valid h targetPath Hvs)
        as (w & r & scanned & images & _ & _ & Hrun).
      unfold runScan_part000, outcome_of_run. rewrite Hrun.
      destruct (node_at (fs h) targetPath) as [c [|]|es o|]; try discriminate.
      cbn [outcome snd]. rewrite resolve_ui_spec. apply Hdef.
Qed.

(** On the fixture, where [img/bad.png] cannot be hashed, [locked] cannot
    be read and the pattern ["["] cannot be resolved. *)
Lemma recoverable_failures_never_abort_witness :
  definite (runScan_extension (Fixture.host (Some ["img"; "locked"])) Fixture.target)
  /\ definite (runScan_part000 (Fixture.host (Some ["["; "img/*"])) Fixture.target).
Proof.
  split.
  - destruct (recoverable_failures_never_abort (Fixture.host (Some ["img"; "locked"])))
      as (_ & _ & _ & H).
    apply (H Fixture.target); [reflexivity | reflexivity | reflexivity | discriminate].
  - destruct (recoverable_failures_never_abort (Fixture.host (Some ["["; "img/*"])))
      as (_ & _ & _ & H).
    apply (H Fixture.target); [reflexivity | reflexivity | reflexivity | discriminate].
Defined.

(** C10. A search root of extension.ts that does not exist is passed over:
    the scan of the roots does not fail, the only trace of the missing root
    is its existence test, and the records are those of the roots before it
    followed by those of the roots after it; altogether the records are the
    ones gathered under the roots that exist. *)
Theorem missing_search_root_is_skipped h extensions before root after :
  root_exists h root = false ->
  (exists records_before records_after,
      outcome (Extension.scanRoots h before extensions) = Ok records_before
      /\ outcome (Extension.scanRoots h after extensions) = Ok records_after
      /\ outcome (Extension.scanRoots h (before ++ root :: after) extensions)
         = Ok (records_before ++ records_after))
  /\ events (Extension.scanRoots h (before ++ root :: after) extensions)
     = events (Extension.scanRoots h before extensions)
       ++ EvExistsSync root :: events (Extension.scanRoots h after extensions)
  /\ forall roots,
      outcome (Extension.scanRoots h roots extensions)
      = outcome (Extension.scanRoots h (filter (root_exists h) roots) extensions).
Proof.
  intros Hmiss. split; [|split].
  - eexists. eexists. rewrite !scanRoots_run. cbn [outcome snd].
    split; [reflexivity|]. split; [reflexivity|].
    rewrite flat_map_app. cbn [flat_map]. now rewrite Hmiss.
  - rewrite !scanRoots_run. cbn [events fst].
    rewrite flat_map_app. cbn [flat_map]. now rewrite Hmiss.
  - intros roots. rewrite !scanRoots_run. cbn [outcome snd]. f_equal.
    induction roots as [|r rs IH]; [reflexivity|]. cbn [flat_map filter].
    destruct (root_exists h r) eqn:Hr; cbn [flat_map app].
    + now rewrite Hr, IH.
    + exact IH.
Qed.

(** On the fixture, with [img], a root that does not exist, and [locked]. *)
Lemma missing_search_root_is_skipped_witness :
  events (Extension.scanRoots (Fixture.host None)
            ([["ws"; "img"]] ++ ["ws"; "nope"] :: [["ws"; "locked"]]) defaultImageExtensions)
  = events (Extension.scanRoots (Fixture.host None) [["ws"; "img"]] defaultImageExtensions)
    ++ EvExistsSync ["ws"; "nope"]
       :: events (Extension.scanRoots (Fixture.host None) [["ws"; "locked"]]
                                      defaultImageExtensions).
Proof.
  destruct (missing_search_root_is_skipped
              (Fixture.host None) defaultImageExtensions
              [["ws"; "img"]] ["ws"; "nope"] [["ws"; "locked"]]) as (_ & H & _);
    [reflexivity | exact H].
Defined.

(* ================================================================== *)
(** ** How the search paths are read *)

Lemma hashAndRecord_no_readdir rootPath fullPath n p :
  ~ In (EvReaddir p) (events (hashAndRecord rootPath fullPath n)).
Proof.
  rewrite hashAndRecord_events.
  destruct n as [c [|]|es o|]; intros [H|[H|[]]]; discriminate.
Qed.

Lemma glob_no_readdir h globPatterns workspaceRoot p :
  globPatterns <> [] ->
  ~ In (EvReaddir p) (events (Part000.scanImageFilesWithGlob h globPatterns workspaceRoot)).
Proof.
  intros Hne.
  destruct (scanImageFilesWithGlob_patterns h _ workspaceRoot Hne) as (He & _).
  rewrite He, in_flat_map. intros (pattern & _ & H).
  rewrite scanGlobPattern_events in H. destruct H as [H|H]; [discriminate|].
  destruct (findFiles h pattern _) as [files|].
  - apply in_flat_map in H. destruct H as (f & _ & H).
    rewrite scanGlobFile_eq in H. destruct (includes _ _); [|destruct H].
    now apply hashAndRecord_no_readdir in H.
  - destruct H as [H|[]]; discriminate.
Qed.

Lemma scanRoots_no_findFiles h roots extensions incl excl :
  ~ In (EvFindFiles incl excl) (events (Extension.scanRoots h roots extensions)).
Proof.
  rewrite scanRoots_run. cbn [events fst]. rewrite in_flat_map.
  intros (r & _ & [H|H]); [discriminate|].
  destruct (root_exists h r); [|destruct H].
  pose proof (scanDirectory_walk_events (node_at (fs h) r)
                (normalizedExtensions extensions) r r) as Hw.
  rewrite forallb_forall in Hw. apply Hw in H. discriminate.
Qed.

(** C2, as amended. In part_000 a non-empty [searchPaths] is a list of glob
    patterns: each is resolved by [findFiles] with the exclusion of
    [node_modules], and no directory is read; an empty one is the recursive
    walk of the workspace root. In extension.ts a non-empty [searchPaths] is
    a list of sub-directories joined to the workspace root, an empty one
    stands for the workspace root itself; every root that exists is walked
    recursively, and no pattern is ever resolved. *)
Theorem searchPaths_by_variant h workspaceRoot :
  (searchPaths h <> [] ->
   (forall incl excl,
       In (EvFindFiles incl excl)
          (events (Part000.scanImageFilesWithGlob h (searchPaths h) workspaceRoot))
       <-> In incl (searchPaths h) /\ excl = Part000.nodeModulesExclude)
   /\ (forall p,
          ~ In (EvReaddir p)
               (events (Part000.scanImageFilesWithGlob h (searchPaths h) workspaceRoot)))
   /\ Extension.searchRoots workspaceRoot (searchPaths h)
      = map (path_join workspaceRoot) (searchPaths h))
  /\ (searchPaths h = [] ->
      Part000.scanImageFilesWithGlob h (searchPaths h) workspaceRoot
      = scanImageFiles h workspaceRoot (imageExtensions h)
      /\ Extension.searchRoots workspaceRoot (searchPaths h) = [workspaceRoot])
  /\ (forall roots extensions,
         (forall incl excl,
             ~ In (EvFindFiles incl excl) (events (Extension.scanRoots h roots extensions)))
         /\ (forall root,
                In root roots -> root_exists h root = true ->
                In (EvReaddir root) (events (Extension.scanRoots h roots extensions)))).
Proof.
  split; [|split].
  - intros Hne. split; [|split].
    + intros incl excl. split; [apply glob_findFiles_events|].
      intros (Hin & ->).
      destruct (scanImageFilesWithGlob_patterns h _ workspaceRoot Hne) as (He & _).
      rewrite He. apply in_flat_map. exists incl. split; [exact Hin|].
      rewrite scanGlobPattern_events. now left.
    + intros p. now apply glob_no_readdir.
    + unfold Extension.searchRoots. destruct (searchPaths h); [contradiction | reflexivity].
  - intros ->. split; reflexivity.
  - intros roots extensions. split.
    + intros incl excl. apply scanRoots_no_findFiles.
    + intros root Hin Hex. rewrite scanRoots_run. cbn [events fst].
      apply in_flat_map. exists root. split; [exact Hin|]. right. rewrite Hex.
      unfold events_under. rewrite scanDirectory_events. now left.
Qed.

(** On the fixture, with one pattern configured. *)
Lemma searchPaths_by_variant_witness :
  In (EvFindFiles "**/*.png" Part000.nodeModulesExclude)
     (events (Part000.scanImageFilesWithGlob
                (Fixture.host (Some ["**/*.png"]))
                (searchPaths (Fixture.host (Some ["**/*.png"]))) ["ws"])).
Proof.
  destruct (searchPaths_by_variant (Fixture.host (Some ["**/*.png"])) ["ws"]) as (H & _).
  destruct H as (H & _); [discriminate|].
  apply H. split; [simpl; tauto | reflexivity].
Defined.

(** C2 as stated fails on extension.ts: with the pattern for every [.png]
    configured, part_000 resolves it and records the files, while
    extension.ts looks for a directory of that name under the workspace
    root, finds none and records nothing. *)
Lemma extension_reads_searchPaths_as_directories :
  ~ (forall h workspaceRoot,
        searchPaths h <> [] ->
        outcome (Extension.scanRoots
                   h (Extension.searchRoots workspaceRoot (searchPaths h)) (imageExtensions h))
        = outcome (Part000.scanImageFilesWithGlob h (searchPaths h) workspaceRoot)).
Proof.
  intros H.
  assert (Hne : searchPaths (Fixture.host (Some ["**/*.png"])) <> []) by discriminate.
  specialize (H (Fixture.host (Some ["**/*.png"])) ["ws"] Hne).
  vm_compute in H. discriminate H.
Qed.

(* ================================================================== *)
(** ** The content hash *)

Lemma bytes_le_length n x : List.length (MD5.bytes_le n x) = n.
Proof. revert x; induction n as [|n IH]; intros x; simpl; [reflexivity | now rewrite IH]. Qed.

Lemma hex_length bs : String.length (MD5.hex bs) = 2 * List.length bs.
Proof. induction bs as [|b r IH]; simpl; [reflexivity | rewrite IH; lia]. Qed.

Lemma digest_bytes_length msg : List.length (MD5.digest_bytes msg) = 16.
Proof. unfold MD5.digest_bytes. now rewrite !length_app, !bytes_le_length. Qed.

Lemma hex_digit_is_hex n : is_hex_digit (MD5.hex_digit n) = true.
Proof.
  unfold MD5.hex_digit.
  assert (H : (Z.to_nat (Z.land n 15) < 16)%nat).
  { change 15%Z with (Z.ones 4). rewrite Z.land_ones by lia.
    pose proof (Z.mod_pos_bound n (2 ^ 4) ltac:(lia)). lia. }
  revert H. generalize (Z.to_nat (Z.land n 15)). intros k Hk.
  do 16 (destruct k as [|k]; [reflexivity|]). lia.
Qed.

Lemma hex_is_hex bs : forallb is_hex_digit (list_ascii_of_string (MD5.hex bs)) = true.
Proof.
  induction bs as [|b r IH]; [reflexivity|].
  cbn [MD5.hex list_ascii_of_string forallb]. now rewrite !hex_digit_is_hex, IH.
Qed.

Lemma hexdigest_length bytes : String.length (MD5.hexdigest bytes) = 32.
Proof. unfold MD5.hexdigest. now rewrite hex_length, digest_bytes_length. Qed.

(** C8. The fingerprint [calculateMD5] resolves with is a function of the
    bytes of the file alone: two readable files with the same bytes have
    the same fingerprint, whatever their paths and however their streams
    cut the bytes into chunks. It is always 32 lower-case hexadecimal
    digits. It depends on the order of the bytes: the same two bytes in the
    other order, and the same two chunks in the other order, give another
    fingerprint. *)
Theorem calculateMD5_deterministic :
  (forall p q chunks1 chunks2,
      content chunks1 = content chunks2 ->
      outcome (calculateMD5 p (File chunks1 true))
      = outcome (calculateMD5 q (File chunks2 true)))
  /\ (forall p chunks,
         exists fingerprint,
           outcome (calculateMD5 p (File chunks true)) = Ok fingerprint
           /\ String.length fingerprint = 32
           /\ forallb is_hex_digit (list_ascii_of_string fingerprint) = true)
  /\ (Permutation (Fixture.bytes "ab") (Fixture.bytes "ba")
      /\ outcome (calculateMD5 [] (File [Fixture.bytes "ab"] true))
         = Ok "187ef4436122d1cc2f40dc2b92f0eba0"
      /\ outcome (calculateMD5 [] (File [Fixture.bytes "ba"] true))
         = Ok "07159c47ee1b19ae4fb9c40d480856c4"
      /\ outcome (calculateMD5 [] (File [Fixture.bytes "a"; Fixture.bytes "bc"] true))
         <> outcome (calculateMD5 [] (File [Fixture.bytes "bc"; Fixture.bytes "a"] true))).
Proof.
  split; [|split].
  - intros p q chunks1 chunks2 H. rewrite !calculateMD5_outcome. now rewrite H.
  - intros p chunks. exists (MD5.hexdigest (content chunks)).
    rewrite calculateMD5_outcome. split; [reflexivity|]. split.
    + apply hexdigest_length.
    + unfold MD5.hexdigest. apply hex_is_hex.
  - split; [apply perm_swap|]. split; [vm_compute; reflexivity|].
    split; [vm_compute; reflexivity|]. vm_compute. discriminate.
Qed.

(** The copy of the fixture is read in two chunks, the target in one. *)
Lemma calculateMD5_deterministic_witness :
  outcome (calculateMD5 ["ws"; "t.png"] (File [Fixture.bytes "abc"] true))
  = outcome (calculateMD5 ["ws"; "img"; "copy.png"]
                          (File [Fixture.bytes "a"; Fixture.bytes "bc"] true)).
Proof.
  destruct calculateMD5_deterministic as (H & _).
  apply H. reflexivity.
Defined.

(* ================================================================== *)
(** ** Further properties of the command *)

Lemma run_without_uri_extension h uri :
  resolveUri h uri = None ->
  Extension.checkDuplicates h uri = ([], [], Ok (ShowError MsgSelectImage)).
Proof. intros H. unfold Extension.checkDuplicates. now rewrite H. Qed.

Lemma run_without_uri_part000 h uri :
  resolveUri h uri = None ->
  Part000.checkDuplicates h uri = ([], [], Ok (ShowError MsgSelectImage)).
Proof. intros H. unfold Part000.checkDuplicates. now rewrite H. Qed.

Lemma run_with_uri_extension h uri targetPath :
  resolveUri h uri = Some targetPath ->
  Extension.checkDuplicates h uri = Extension.checkDuplicates h (Some targetPath).
Proof. intros H. unfold Extension.checkDuplicates. now rewrite H. Qed.

Lemma run_with_uri_part000 h uri targetPath :
  resolveUri h uri = Some targetPath ->
  Part000.checkDuplicates h uri = Part000.checkDuplicates h (Some targetPath).
Proof. intros H. unfold Part000.checkDuplicates. now rewrite H. Qed.

Lemma extension_run_shape h targetPath :
  exists t u, Extension.checkDuplicates h (Some targetPath) = (t, [], Ok u).
Proof.
  destruct (validate_target h targetPath) as [f|] eqn:Hv.
  - rewrite (extension_run_invalid h targetPath f Hv). eauto.
  - rewrite (extension_run_valid h targetPath Hv).
    destruct (node_at (fs h) targetPath) as [c [|]|es o|]; eauto.
    destruct (workspaceFolders h); eauto.
Qed.

Lemma part000_run_shape h targetPath :
  exists t u, Part000.checkDuplicates h (Some targetPath) = (t, [], Ok u).
Proof.
  destruct (validate_spec h targetPath) as [f|] eqn:Hv.
  - rewrite (part000_run_invalid h targetPath f Hv). eauto.
  - destruct (part000_run_valid h targetPath Hv) as (w & r & scanned & images & _ & _ & Hrun).
    rewrite Hrun. destruct (node_at (fs h) targetPath) as [c [|]|es o|]; eauto.
Qed.

(** X1. Whatever the host and the argument, the command handler of either
    variant ends by showing something: no error leaves the handler (the
    outer [catch] turns it into the error message), and no record stays on
    an array outside the scans. With neither an argument nor an active
    editor it asks for an image file without touching the host at all. *)
Theorem command_never_throws h uri :
  (exists t u, Extension.checkDuplicates h uri = (t, [], Ok u))
  /\ (exists t u, Part000.checkDuplicates h uri = (t, [], Ok u))
  /\ (resolveUri h uri = None ->
      Extension.checkDuplicates h uri = ([], [], Ok (ShowError MsgSelectImage))
      /\ Part000.checkDuplicates h uri = ([], [], Ok (ShowError MsgSelectImage))).
Proof.
  destruct (resolveUri h uri) as [targetPath|] eqn:Hu.
  - rewrite (run_with_uri_extension h uri targetPath Hu),
      (run_with_uri_part000 h uri targetPath Hu).
    split; [apply extension_run_shape|]. split; [apply part000_run_shape | discriminate].
  - rewrite (run_without_uri_extension h uri Hu), (run_without_uri_part000 h uri Hu).
    repeat split; eauto.
Qed.

(** The fixture has no active editor. *)
Lemma command_never_throws_witness :
  Extension.checkDuplicates (Fixture.host None) None
  = ([], [], Ok (ShowError MsgSelectImage))
  /\ Part000.checkDuplicates (Fixture.host None) None
     = ([], [], Ok (ShowError MsgSelectImage)).
Proof.
  destruct (command_never_throws (Fixture.host None) None) as (_ & _ & H).
  apply H. reflexivity.
Defined.

Lemma relative_app rootPath rel : relative rootPath (rootPath ++ rel) = rel.
Proof.
  induction rootPath as [|s r IH]; simpl.
  - now destruct rel.
  - now rewrite String.eqb_refl.
Qed.




Lemma scanEntry_record_paths normalized rootPath dirPath name child img :
  In img (pushed (scanEntry normalized rootPath dirPath (name, child))) ->
  exists rest, filePath img = dirPath ++ name :: rest.
Proof.
  rewrite scanEntry_eq. destruct (skipped name); [intros []|].
  destruct child as [c o|es o|]; try (intros []).
  - destruct (includes _ _); [|intros []].
    rewrite hashAndRecord_pushed. destruct o; [|intros []].
    intros [<-|[]]. now exists [].
  - intros H. apply scanDirectory_records in H. destruct H as (rel & c & -> & _).
    exists rel. cbn [filePath]. unfold join_entry. now rewrite <- app_assoc.
Qed.

Lemma scanDirectory_paths_nodup d :
  unique_names d ->
  forall normalized rootPath dirPath,
    NoDup (map filePath (pushed (scanDirectory normalized rootPath dirPath d))).
Proof.
  induction d as [chunks ok|entries ok IH|] using node_tree_ind;
    intros Hu normalized rootPath dirPath; rewrite scanDirectory_pushed;
    try constructor.
  destruct ok; [|constructor].
  inversion Hu as [| |es' ok' Hnd Hall]; subst. clear Hu.
  induction entries as [|[name child] rest IHes]; [constructor|].
  cbn [flat_map]. rewrite map_app.
  inversion IH as [|e l Hchild IHrest]; subst.
  inversion Hall as [|e l Hchild_u Hrest_u]; subst.
  cbn [map fst] in Hnd. inversion Hnd as [|x l Hnotin Hnd']; subst.
  apply NoDup_app.
  - rewrite scanEntry_eq. destruct (skipped name); [constructor|].
    destruct child as [c o|es o|]; try constructor.
    + destruct (includes _ _); [|constructor].
      rewrite hashAndRecord_pushed. destruct o; repeat constructor. intros [].
    + apply Hchild. exact Hchild_u.
  - apply IHes; assumption.
  - intros p Hp Hq.
    apply in_map_iff in Hp. destruct Hp as (img & <- & Himg).
    apply scanEntry_record_paths in Himg. destruct Himg as (r1 & Hp1).
    apply in_map_iff in Hq. destruct Hq as (img' & Heq & Himg').
    apply in_flat_map in Himg'. destruct Himg' as ([name' child'] & Hin' & Himg').
    apply scanEntry_record_paths in Himg'. destruct Himg' as (r2 & Hp2).
    rewrite Hp1, Hp2 in Heq. apply app_inv_head in Heq. injection Heq as Hn _.
    apply Hnotin. subst name'. change name with (fst (name, child')).
    now apply in_map.
Qed.

(** X3. On a file system (no directory lists a name twice) one recursive
    walk records every path at most once: the records of [scanImageFiles]
    have pairwise different paths. *)
Theorem walk_records_each_path_once h rootPath extensions images :
  unique_names (fs h) ->
  outcome (scanImageFiles h rootPath extensions) = Ok images ->
  NoDup (map filePath images).
Proof.
  intros Hu Ho. rewrite scanImageFiles_outcome in Ho. injection Ho as <-.
  apply scanDirectory_paths_nodup.
  unfold node_at. destruct (lookup (fs h) rootPath) as [d|] eqn:Hl; [|constructor].
  eapply unique_names_lookup; eassumption.
Qed.

Ltac prove_unique_names :=
  repeat (constructor; cbn [map fst snd]);
  cbn [In]; intuition discriminate.

Lemma fixture_unique_names paths : unique_names (fs (Fixture.host paths)).
Proof. cbn [fs Fixture.host]. unfold Fixture.root, Fixture.ws, Fixture.file. prove_unique_names. Qed.

(** On the fixture. *)
Lemma walk_records_each_path_once_witness :
  exists images,
    outcome (scanImageFiles (Fixture.host None) ["ws"] defaultImageExtensions) = Ok images
    /\ NoDup (map filePath images).
Proof.
  eexists. split; [apply scanImageFiles_outcome|].
  apply (walk_records_each_path_once (Fixture.host None) ["ws"] defaultImageExtensions).
  - apply fixture_unique_names.
  - apply scanImageFiles_outcome.
Defined.

(* ================================================================== *)
(** ** The outcome of a run, case by case *)

Lemma runScan_extension_cases h targetPath :
  runScan_extension h targetPath
  = match validate_target h targetPath with
    | Some f => Fatal f
    | None =>
        match node_at (fs h) targetPath with
        | File chunks true =>
            match workspaceFolders h with
            | [] => Fatal NoWorkspace
            | workspaceRoot :: _ =>
                resolveOutcome_spec (MD5.hexdigest (content chunks)) targetPath
                                    (extension_records h workspaceRoot)
            end
        | _ => Fatal IOError
        end
    end.
Proof.
  unfold runScan_extension, outcome_of_run.
  destruct (validate_target h targetPath) as [f|] eqn:Hv.
  - rewrite (extension_run_invalid h targetPath f Hv). apply outcome_of_fatal_message.
  - rewrite (extension_run_valid h targetPath Hv).
    destruct (node_at (fs h) targetPath) as [c [|]|es o|]; try reflexivity.
    destruct (workspaceFolders h); [reflexivity|].
    cbn [outcome snd]. apply resolve_ui_spec.
Qed.

Lemma runScan_part000_cases h targetPath :
  runScan_part000 h targetPath
  = match validate_spec h targetPath with
    | Some f => Fatal f
    | None =>
        match node_at (fs h) targetPath with
        | File chunks true =>
            resolveOutcome_spec (MD5.hexdigest (content chunks)) targetPath
                                (part000_records h (hd [] (workspaceFolders h)))
        | _ => Fatal IOError
        end
    end.
Proof.
  unfold runScan_part000, outcome_of_run.
  destruct (validate_spec h targetPath) as [f|] eqn:Hv.
  - rewrite (part000_run_invalid h targetPath f Hv). apply outcome_of_fatal_message.
  - destruct (part000_run_valid h targetPath Hv)
      as (w & r & scanned & images & Hw & Hscan & Hrun).
    rewrite Hrun, Hw. cbn [hd]. unfold part000_records. rewrite Hscan.
    destruct (node_at (fs h) targetPath) as [c [|]|es o|]; try reflexivity.
    cbn [outcome snd]. apply resolve_ui_spec.
Qed.

Lemma validated_target h targetPath chunks :
  lookup (fs h) targetPath = Some (File chunks true) ->
  includes (toLowerCase (extname_path targetPath)) (imageExtensions h) = true ->
  validate_target h targetPath = None
  /\ node_at (fs h) targetPath = File chunks true
  /\ (workspaceFolders h <> [] -> validate_spec h targetPath = None).
Proof.
  intros Hl Hi. destruct (lookup_file_valid _ _ _ _ Hl) as (Hex & Hn).
  unfold validate_target, validate_spec. rewrite Hex, Hi. cbn [negb].
  repeat split; try assumption.
  destruct (workspaceFolders h); [contradiction | reflexivity].
Qed.

(** A record with the target's fingerprint at another path is listed. *)
Lemma resolveOutcome_spec_complete fingerprint targetPath records r :
  In r records -> md5 r = fingerprint -> filePath r <> targetPath ->
  exists others,
    resolveOutcome_spec fingerprint targetPath records = DuplicatesFound others
    /\ In r others.
Proof.
  intros Hin Hm Hp. unfold resolveOutcome_spec.
  assert (H1 : In r (filter (fun r => String.eqb (md5 r) fingerprint) records)).
  { apply filter_In. split; [exact Hin|]. subst. apply String.eqb_refl. }
  assert (H2 : In r (filter (fun r => negb (path_eqb (filePath r) targetPath))
                            (filter (fun r => String.eqb (md5 r) fingerprint) records))).
  { apply filter_In. split; [exact H1|].
    destruct (path_eqb (filePath r) targetPath) eqn:E; [|reflexivity].
    apply path_eqb_eq in E. contradiction. }
  destruct (filter _ records) as [|m ms]; [destruct H1|].
  destruct (filter _ (m :: ms)) as [|o os]; [destruct H2|].
  eexists. split; [reflexivity | exact H2].
Qed.

Lemma extension_records_iff h workspaceRoot img :
  In img (extension_records h workspaceRoot)
  <-> exists root,
      In root (Extension.searchRoots workspaceRoot (searchPaths h))
      /\ root_exists h root = true
      /\ In img (records_under h (imageExtensions h) root).
Proof.
  unfold extension_records. rewrite in_flat_map. split.
  - intros (root & Hin & H). exists root.
    destruct (root_exists h root); [now repeat split | destruct H].
  - intros (root & Hin & Hex & H). exists root. now rewrite Hex.
Qed.

Lemma reaches_root_exists h root rel n :
  reaches (node_at (fs h) root) rel n -> root_exists h root = true.
Proof.
  unfold node_at, root_exists. destruct (lookup (fs h) root); [reflexivity|].
  intros H. inversion H.
Qed.

(* ================================================================== *)
(** ** Copies are found, and what is found is a copy *)

(** X4. extension.ts finds every copy it can reach. When the target is a
    readable image file and a workspace is open, a readable file with the
    same bytes at another path, with an accepted extension, reachable from
    one of the search roots, is listed among the duplicates, with its
    digest and its path below that root. *)
Theorem extension_reports_every_copy
        h targetPath targetChunks workspaceRoot rest root rel copyChunks :
  lookup (fs h) targetPath = Some (File targetChunks true) ->
  includes (toLowerCase (extname_path targetPath)) (imageExtensions h) = true ->
  workspaceFolders h = workspaceRoot :: rest ->
  In root (Extension.searchRoots workspaceRoot (searchPaths h)) ->
  reaches (node_at (fs h) root) rel (File copyChunks true) ->
  includes (toLowerCase (extname_path (root ++ rel)))
           (normalizedExtensions (imageExtensions h)) = true ->
  content copyChunks = content targetChunks ->
  root ++ rel <> targetPath ->
  exists others,
    runScan_extension h targetPath = DuplicatesFound others
    /\ In (mkImageInfo (root ++ rel) (MD5.hexdigest (content targetChunks)) rel) others.
Proof.
  intros Hl Hi Hw Hroot Hr Hext Hc Hne.
  destruct (validated_target h targetPath targetChunks Hl Hi) as (Hv & Hn & _).
  rewrite runScan_extension_cases, Hv, Hn, Hw.
  apply resolveOutcome_spec_complete; [|reflexivity|exact Hne].
  apply extension_records_iff. exists root. split; [exact Hroot|].
  split; [eapply reaches_root_exists; eassumption|].
  unfold records_under. apply scanDirectory_records.
  exists rel, copyChunks. rewrite relative_app, Hc. repeat split; assumption.
Qed.

(** On the fixture: [img/copy.png], read in two chunks, is a copy of the
    target [t.png], read in one. *)
Lemma extension_reports_every_copy_witness :
  exists others,
    runScan_extension (Fixture.host None) Fixture.target = DuplicatesFound others
    /\ In (mkImageInfo (["ws"] ++ ["img"; "copy.png"])
                       (MD5.hexdigest (content [Fixture.bytes "abc"]))
                       ["img"; "copy.png"]) others.
Proof.
  apply (extension_reports_every_copy
           (Fixture.host None) Fixture.target [Fixture.bytes "abc"] ["ws"] [] ["ws"]
           ["img"; "copy.png"] [Fixture.bytes "a"; Fixture.bytes "bc"]);
    try reflexivity.
  - simpl. tauto.
  - apply reaches_below with (child := Dir [ ("copy.png", File [Fixture.bytes "a"; Fixture.bytes "bc"] true);
                      ("other.png", Fixture.file "xyz");
                      ("UP.PNG", Fixture.file "abc");
                      ("bad.png", File [Fixture.bytes "abc"] false);
                      ("notes.txt", Fixture.file "abc");
                      ("link", Other) ] true);
      [simpl; tauto | reflexivity |].
    apply reaches_entry; [simpl; tauto | reflexivity].
  - discriminate.
Defined.

Lemma part000_records_ok h workspaceRoot :
  outcome (Part000.scanImageFilesWithGlob h (searchPaths h) workspaceRoot)
  = Ok (part000_records h workspaceRoot).
Proof.
  unfold part000_records.
  destruct (scanImageFilesWithGlob_succeeds h (searchPaths h) workspaceRoot) as (images & Ho).
  now rewrite Ho.
Qed.

(** X5. part_000 finds every copy it can reach. When the target is a
    readable image file and a workspace is open, a readable file with the
    same bytes at another path, with an accepted extension, is listed among
    the duplicates: with no search path configured if it is reachable from
    the workspace root, with search paths configured if one of them, as a
    pattern, resolves to it. *)
Theorem part000_reports_every_copy
        h targetPath targetChunks workspaceRoot rest copyPath copyChunks :
  lookup (fs h) targetPath = Some (File targetChunks true) ->
  includes (toLowerCase (extname_path targetPath)) (imageExtensions h) = true ->
  workspaceFolders h = workspaceRoot :: rest ->
  includes (toLowerCase (extname_path copyPath))
           (normalizedExtensions (imageExtensions h)) = true ->
  content copyChunks = content targetChunks ->
  copyPath <> targetPath ->
  (searchPaths h = []
   /\ exists rel, copyPath = workspaceRoot ++ rel
                  /\ reaches (node_at (fs h) workspaceRoot) rel (File copyChunks true))
  \/ (exists pattern files,
         In pattern (searchPaths h)
         /\ findFiles h pattern Part000.nodeModulesExclude = Some files
         /\ In copyPath files
         /\ node_at (fs h) copyPath = File copyChunks true) ->
  exists others,
    runScan_part000 h targetPath = DuplicatesFound others
    /\ In (mkImageInfo copyPath (MD5.hexdigest (content targetChunks))
                       (relative workspaceRoot copyPath)) others.
Proof.
  intros Hl Hi Hw Hext Hc Hne Hreach.
  destruct (validated_target h targetPath targetChunks Hl Hi) as (_ & Hn & Hv).
  rewrite runScan_part000_cases, Hv, Hn, Hw by (rewrite Hw; discriminate). cbn [hd].
  apply resolveOutcome_spec_complete; [|reflexivity|exact Hne].
  pose proof (part000_records_ok h workspaceRoot) as Ho.
  destruct Hreach as [(Hsp & rel & -> & Hr)|(pattern & files & Hin & Hf & Hfin & Hnode)].
  - rewrite Hsp, scanImageFilesWithGlob_empty, scanImageFiles_outcome in Ho.
    injection Ho as <-. apply scanDirectory_records.
    exists rel, copyChunks. rewrite Hc. repeat split; assumption.
  - assert (Hnepat : searchPaths h <> []) by (intros E; rewrite E in Hin; destruct Hin).
    apply (glob_records h _ workspaceRoot _ _ Hnepat Ho).
    exists pattern, files, copyChunks. cbn [filePath]. rewrite Hc.
    repeat split; assumption.
Qed.

(** On the fixture, with the pattern for every [.png]: the hidden copy. *)
Lemma part000_reports_every_copy_witness :
  exists others,
    runScan_part000 (Fixture.host (Some ["**/*.png"])) Fixture.target
    = DuplicatesFound others
    /\ In (mkImageInfo ["ws"; ".hidden"; "h.png"]
                       (MD5.hexdigest (content [Fixture.bytes "abc"]))
                       (relative ["ws"] ["ws"; ".hidden"; "h.png"])) others.
Proof.
  apply (part000_reports_every_copy
           (Fixture.host (Some ["**/*.png"])) Fixture.target [Fixture.bytes "abc"]
           ["ws"] [] ["ws"; ".hidden"; "h.png"] [Fixture.bytes "abc"]);
    try reflexivity.
  - discriminate.
  - right. exists "**/*.png", 
      [ ["ws"; "t.png"]; ["ws"; ".icon.png"]; ["ws"; "img"; "copy.png"];
        ["ws"; "img"; "other.png"]; ["ws"; "img"; "bad.png"];
        ["ws"; ".hidden"; "h.png"] ].
    repeat split; try reflexivity; simpl; tauto.
Defined.

Lemma records_under_files h extensions root img :
  unique_names (fs h) ->
  In img (records_under h extensions root) ->
  exists chunks,
    node_at (fs h) (filePath img) = File chunks true
    /\ md5 img = MD5.hexdigest (content chunks)
    /\ includes (toLowerCase (extname_path (filePath img)))
                (normalizedExtensions extensions) = true.
Proof.
  intros Hu Hin. unfold records_under in Hin.
  apply scanDirectory_records in Hin. destruct Hin as (rel & c & -> & Hr & Hi).
  exists c. cbn [filePath md5]. split; [|now split].
  unfold node_at in *. rewrite lookup_app.
  destruct (lookup (fs h) root) as [d|] eqn:Hl; [|inversion Hr].
  rewrite (reaches_lookup d rel (File c true)); [reflexivity| |exact Hr].
  eapply unique_names_lookup; eassumption.
Qed.

Lemma part000_records_files h workspaceRoot img :
  unique_names (fs h) ->
  In img (part000_records h workspaceRoot) ->
  exists chunks,
    node_at (fs h) (filePath img) = File chunks true
    /\ md5 img = MD5.hexdigest (content chunks)
    /\ includes (toLowerCase (extname_path (filePath img)))
                (normalizedExtensions (imageExtensions h)) = true.
Proof.
  intros Hu Hin. pose proof (part000_records_ok h workspaceRoot) as Ho.
  destruct (searchPaths h) as [|g gs] eqn:Hsp.
  - rewrite scanImageFilesWithGlob_empty, scanImageFiles_outcome in Ho.
    injection Ho as Ho. rewrite <- Ho in Hin.
    now apply (records_under_files h (imageExtensions h) workspaceRoot).
  - assert (Hne : g :: gs <> []) by discriminate.
    apply (glob_records h _ workspaceRoot _ img Hne Ho) in Hin.
    destruct Hin as (pattern & files & c & _ & _ & _ & Hi & Hn & Heq).
    exists c. split; [exact Hn|]. split; [now rewrite Heq | exact Hi].
Qed.

(** X6. What either variant lists is a copy as far as the digest tells.
    On a file system (no directory lists a name twice), when a run ends
    with a list of duplicates, the target is a readable file and every
    record listed is that of a readable file at another path, with an
    accepted extension, whose bytes have the digest of the target's bytes;
    the record carries that digest. *)
Theorem reported_duplicates_are_copies h targetPath others r :
  unique_names (fs h) ->
  runScan_extension h targetPath = DuplicatesFound others
  \/ runScan_part000 h targetPath = DuplicatesFound others ->
  In r others ->
  exists targetChunks chunks,
    node_at (fs h) targetPath = File targetChunks true
    /\ node_at (fs h) (filePath r) = File chunks true
    /\ md5 r = MD5.hexdigest (content chunks)
    /\ MD5.hexdigest (content chunks) = MD5.hexdigest (content targetChunks)
    /\ filePath r <> targetPath
    /\ includes (toLowerCase (extname_path (filePath r)))
                (normalizedExtensions (imageExtensions h)) = true.
Proof.
  intros Hu Hrun Hin.
  assert (Hgen : forall targetChunks records,
             node_at (fs h) targetPath = File targetChunks true ->
             (forall img, In img records ->
                exists chunks,
                  node_at (fs h) (filePath img) = File chunks true
                  /\ md5 img = MD5.hexdigest (content chunks)
                  /\ includes (toLowerCase (extname_path (filePath img)))
                              (normalizedExtensions (imageExtensions h)) = true) ->
             resolveOutcome_spec (MD5.hexdigest (content targetChunks)) targetPath records
             = DuplicatesFound others ->
             exists targetChunks chunks,
               node_at (fs h) targetPath = File targetChunks true
               /\ node_at (fs h) (filePath r) = File chunks true
               /\ md5 r = MD5.hexdigest (content chunks)
               /\ MD5.hexdigest (content chunks) = MD5.hexdigest (content targetChunks)
               /\ filePath r <> targetPath
               /\ includes (toLowerCase (extname_path (filePath r)))
                           (normalizedExtensions (imageExtensions h)) = true).
  { intros tc records Hn Hrec Hres.
    apply resolveOutcome_spec_others in Hres. destruct Hres as (_ & Hall).
    rewrite Forall_forall in Hall. destruct (Hall r Hin) as (Hr & Hm & Hp).
    destruct (Hrec r Hr) as (c & Hnode & Hmd5 & Hext).
    exists tc, c. repeat split; try assumption. congruence. }
  destruct Hrun as [Hrun|Hrun].
  - rewrite runScan_extension_cases in Hrun.
    destruct (validate_target h targetPath); [discriminate|].
    destruct (node_at (fs h) targetPath) as [tc [|]|es o|] eqn:Hn; try discriminate.
    destruct (workspaceFolders h) as [|w ws]; [discriminate|].
    apply (Hgen tc (extension_records h w) eq_refl); [|exact Hrun].
    intros img Himg. apply extension_records_iff in Himg.
    destruct Himg as (root & _ & _ & Himg).
    now apply (records_under_files h (imageExtensions h) root).
  - rewrite runScan_part000_cases in Hrun.
    destruct (validate_spec h targetPath); [discriminate|].
    destruct (node_at (fs h) targetPath) as [tc [|]|es o|] eqn:Hn; try discriminate.
    apply (Hgen tc (part000_records h (hd [] (workspaceFolders h))) eq_refl); [|exact Hrun].
    intros img Himg. now apply (part000_records_files h (hd [] (workspaceFolders h))).
Qed.

(** On the fixture: the copy listed for [t.png]. *)
Lemma reported_duplicates_are_copies_witness :
  exists targetChunks chunks,
    node_at (fs (Fixture.host None)) Fixture.target = File targetChunks true
    /\ node_at (fs (Fixture.host None)) ["ws"; "img"; "copy.png"] = File chunks true
    /\ MD5.hexdigest (content chunks) = MD5.hexdigest (content targetChunks).
Proof.
  destruct (reported_duplicates_are_copies
              (Fixture.host None) Fixture.target
              [ mkImageInfo ["ws"; "img"; "copy.png"] "900150983cd24fb0d6963f7d28e17f72"
                            ["img"; "copy.png"];
                mkImageInfo ["ws"; "img"; "UP.PNG"] "900150983cd24fb0d6963f7d28e17f72"
                            ["img"; "UP.PNG"] ]
              (mkImageInfo ["ws"; "img"; "copy.png"] "900150983cd24fb0d6963f7d28e17f72"
                           ["img"; "copy.png"]))
    as (tc & c & H1 & H2 & _ & H4 & _).
  - apply fixture_unique_names.
  - left. vm_compute. reflexivity.
  - simpl. tauto.
  - exists tc, c. now repeat split.
Defined.

(* ================================================================== *)
(** ** The target among the candidates *)

Lemma lower_ascii_idempotent c : lower_ascii (lower_ascii c) = lower_ascii c.
Proof. destruct c as [[] [] [] [] [] [] [] []]; reflexivity. Qed.

Lemma toLowerCase_idempotent s : toLowerCase (toLowerCase s) = toLowerCase s.
Proof.
  induction s as [|c r IH]; simpl; [reflexivity|].
  now rewrite lower_ascii_idempotent, IH.
Qed.

(** An extension the handler lets through is one the walk accepts. *)
Lemma validated_extension_is_accepted x extensions :
  includes (toLowerCase x) extensions = true ->
  includes (toLowerCase x) (normalizedExtensions extensions) = true.
Proof.
  rewrite !includes_In. intros H. unfold normalizedExtensions.
  rewrite <- (toLowerCase_idempotent x). now apply in_map.
Qed.

Lemma resolveOutcome_spec_some_match fingerprint targetPath records r :
  In r records -> md5 r = fingerprint ->
  resolveOutcome_spec fingerprint targetPath records <> NoneFound.
Proof.
  intros Hin Hm. unfold resolveOutcome_spec.
  assert (H1 : In r (filter (fun r => String.eqb (md5 r) fingerprint) records)).
  { apply filter_In. split; [exact Hin|]. subst. apply String.eqb_refl. }
  destruct (filter _ records) as [|m ms]; [destruct H1|].
  destruct (filter _ (m :: ms)); discriminate.
Qed.

Lemma resolveOutcome_spec_only_self fingerprint targetPath records :
  resolveOutcome_spec fingerprint targetPath records = OnlySelfFound ->
  exists r, In r records /\ md5 r = fingerprint /\ filePath r = targetPath.
Proof.
  unfold resolveOutcome_spec.
  destruct (filter _ records) as [|m ms] eqn:Hm; [discriminate|].
  destruct (filter _ (m :: ms)) as [|o os] eqn:Ho; [|discriminate]. intros _.
  assert (Hin : In m (filter (fun r => String.eqb (md5 r) fingerprint) records))
    by (rewrite Hm; now left).
  apply filter_In in Hin. destruct Hin as (Hin & Heq). apply String.eqb_eq in Heq.
  exists m. repeat split; try assumption.
  cbn [filter] in Ho.
  destruct (path_eqb (filePath m) targetPath) eqn:E; [now apply path_eqb_eq|].
  cbn [negb] in Ho. discriminate.
Qed.

(** X7. A target that the scan itself reaches is never reported as having
    no match. On a file system (no directory lists a name twice), when the
    target is a readable file with an image extension, reachable from a
    search root of extension.ts, the run ends with the target as its only
    match or with a list of duplicates; the same holds for part_000 with no
    search path configured and the target reachable from the workspace
    root. *)
Theorem reachable_target_matches_itself h workspaceRoot rest root rel chunks :
  unique_names (fs h) ->
  workspaceFolders h = workspaceRoot :: rest ->
  reaches (node_at (fs h) root) rel (File chunks true) ->
  includes (toLowerCase (extname_path (root ++ rel))) (imageExtensions h) = true ->
  (In root (Extension.searchRoots workspaceRoot (searchPaths h)) ->
   runScan_extension h (root ++ rel) <> NoneFound
   /\ definite (runScan_extension h (root ++ rel)))
  /\ (searchPaths h = [] -> root = workspaceRoot ->
      runScan_part000 h (root ++ rel) <> NoneFound
      /\ definite (runScan_part000 h (root ++ rel))).
Proof.
  intros Hu Hw Hr Hi.
  assert (Hl : lookup (fs h) (root ++ rel) = Some (File chunks true)).
  { rewrite lookup_app. unfold node_at in Hr.
    destruct (lookup (fs h) root) as [d|] eqn:Hd; [|inversion Hr].
    apply reaches_lookup; [|exact Hr]. eapply unique_names_lookup; eassumption. }
  destruct (validated_target h (root ++ rel) chunks Hl Hi) as (Hvt & Hn & Hvs).
  assert (Hrec : In (mkImageInfo (root ++ rel) (MD5.hexdigest (content chunks))
                                 (relative root (root ++ rel)))
                    (records_under h (imageExtensions h) root)).
  { unfold records_under. apply scanDirectory_records. exists rel, chunks.
    repeat split; [exact Hr|]. now apply validated_extension_is_accepted. }
  assert (Hdef : forall records,
             resolveOutcome_spec (MD5.hexdigest (content chunks)) (root ++ rel) records
             <> NoneFound ->
             definite (resolveOutcome_spec (MD5.hexdigest (content chunks))
                                           (root ++ rel) records)).
  { intros records _. unfold resolveOutcome_spec.
    destruct (filter _ records) as [|m ms]; [exact I|].
    destruct (filter _ (m :: ms)); exact I. }
  split.
  - intros Hroot. rewrite runScan_extension_cases, Hvt, Hn, Hw.
    assert (Hne : resolveOutcome_spec (MD5.hexdigest (content chunks)) (root ++ rel)
                                      (extension_records h workspaceRoot) <> NoneFound).
    { apply resolveOutcome_spec_some_match
        with (r := mkImageInfo (root ++ rel) (MD5.hexdigest (content chunks))
                               (relative root (root ++ rel))); [|reflexivity].
      apply extension_records_iff. exists root. split; [exact Hroot|].
      split; [eapply reaches_root_exists; eassumption | exact Hrec]. }
    split; [exact Hne | now apply Hdef].
  - intros Hsp ->. rewrite runScan_part000_cases, Hvs, Hn, Hw by (rewrite Hw; discriminate).
    cbn [hd].
    assert (Hne : resolveOutcome_spec (MD5.hexdigest (content chunks)) (workspaceRoot ++ rel)
                                      (part000_records h workspaceRoot) <> NoneFound).
    { apply resolveOutcome_spec_some_match
        with (r := mkImageInfo (workspaceRoot ++ rel) (MD5.hexdigest (content chunks))
                               (relative workspaceRoot (workspaceRoot ++ rel)));
        [|reflexivity].
      pose proof (part000_records_ok h workspaceRoot) as Ho.
      rewrite Hsp, scanImageFilesWithGlob_empty, scanImageFiles_outcome in Ho.
      injection Ho as <-. exact Hrec. }
    split; [exact Hne | now apply Hdef].
Qed.

Lemma fixture_reaches_other :
  reaches (node_at (fs (Fixture.host None)) ["ws"]) ["img"; "other.png"]
          (File [Fixture.bytes "xyz"] true).
Proof.
  eapply reaches_below; [| |apply reaches_entry].
  - cbn. right. right. left. reflexivity.
  - reflexivity.
  - cbn. right. left. reflexivity.
  - reflexivity.
Qed.

(** On the fixture: [img/other.png], which has no copy, as the target. *)
Lemma reachable_target_matches_itself_witness :
  runScan_extension (Fixture.host None) (["ws"] ++ ["img"; "other.png"]) <> NoneFound.
Proof.
  destruct (reachable_target_matches_itself
              (Fixture.host None) ["ws"] [] ["ws"] ["img"; "other.png"]
              [Fixture.bytes "xyz"]) as (H & _).
  - apply fixture_unique_names.
  - reflexivity.
  - apply fixture_reaches_other.
  - reflexivity.
  - destruct H as (H & _); [simpl; tauto | exact H].
Defined.

(** X8. A target the walk passes over is never its own match. With no
    search path configured, when every way of writing the target below the
    workspace root goes through a segment [node_modules] or one that starts
    with a dot (or there is no such way: the target lies outside the
    workspace), neither variant ends with the target as its only match: a
    target without copies is then reported as having no match at all. *)
Theorem skipped_target_is_never_self_match h targetPath workspaceRoot rest :
  searchPaths h = [] ->
  workspaceFolders h = workspaceRoot :: rest ->
  (forall rel, targetPath = workspaceRoot ++ rel -> has_skipped_segment rel = true) ->
  runScan_extension h targetPath <> OnlySelfFound
  /\ runScan_part000 h targetPath <> OnlySelfFound.
Proof.
  intros Hsp Hw Hskip.
  assert (Hno : forall img, In img (records_under h (imageExtensions h) workspaceRoot) ->
                            filePath img <> targetPath).
  { intros img Hin Hp. unfold records_under in Hin.
    apply scanDirectory_records in Hin. destruct Hin as (rel & c & -> & Hr & _).
    cbn [filePath] in Hp. symmetry in Hp. apply Hskip in Hp.
    apply reaches_no_skipped in Hr. congruence. }
  split.
  - rewrite runScan_extension_cases.
    destruct (validate_target h targetPath); [discriminate|].
    destruct (node_at (fs h) targetPath) as [c [|]|es o|]; try discriminate.
    rewrite Hw. intros H. apply resolveOutcome_spec_only_self in H.
    destruct H as (r & Hin & _ & Hp).
    apply extension_records_iff in Hin. destruct Hin as (root & Hroot & _ & Hin).
    rewrite Hsp in Hroot. destruct Hroot as [<-|[]]. exact (Hno r Hin Hp).
  - rewrite runScan_part000_cases.
    destruct (validate_spec h targetPath); [discriminate|].
    destruct (node_at (fs h) targetPath) as [c [|]|es o|]; try discriminate.
    rewrite Hw. cbn [hd]. intros H. apply resolveOutcome_spec_only_self in H.
    destruct H as (r & Hin & _ & Hp).
    pose proof (part000_records_ok h workspaceRoot) as Ho.
    rewrite Hsp, scanImageFilesWithGlob_empty, scanImageFiles_outcome in Ho.
    injection Ho as Ho. rewrite <- Ho in Hin. exact (Hno r Hin Hp).
Qed.

(** On the fixture: the dot-prefixed image file as the target. *)
Lemma skipped_target_is_never_self_match_witness :
  runScan_extension (Fixture.host None) ["ws"; ".icon.png"] <> OnlySelfFound
  /\ runScan_part000 (Fixture.host None) ["ws"; ".icon.png"] <> OnlySelfFound.
Proof.
  apply (skipped_target_is_never_self_match (Fixture.host None) ["ws"; ".icon.png"] ["ws"] []);
    try reflexivity.
  intros rel H. change ["ws"; ".icon.png"] with (["ws"] ++ [".icon.png"]) in H.
  apply app_inv_head in H. now subst.
Defined.

(** X9. The handler and the walk do not read the configured extensions the
    same way. The handler looks the target's extension, in lower case, up
    in the list as configured; the walk looks a candidate's extension up in
    the list put in lower case. So whatever the handler lets through the
    walk accepts too, but a configuration in which every extension has an
    upper-case letter makes both variants refuse every existing target as
    not being an image. *)
Theorem configured_case_matters_for_the_target h targetPath :
  (includes (toLowerCase (extname_path targetPath)) (imageExtensions h) = true ->
   includes (toLowerCase (extname_path targetPath))
            (normalizedExtensions (imageExtensions h)) = true)
  /\ ((forall e, In e (imageExtensions h) -> toLowerCase e <> e) ->
      root_exists h targetPath = true ->
      runScan_extension h targetPath = Fatal NotAnImage
      /\ runScan_part000 h targetPath = Fatal NotAnImage).
Proof.
  split; [apply validated_extension_is_accepted|].
  intros Hup Hex.
  assert (Hi : includes (toLowerCase (extname_path targetPath)) (imageExtensions h) = false).
  { destruct (includes _ _) eqn:E; [|reflexivity].
    apply includes_In in E. exfalso. apply (Hup _ E). apply toLowerCase_idempotent. }
  split.
  - rewrite runScan_extension_cases. unfold validate_target. now rewrite Hex, Hi.
  - rewrite runScan_part000_cases. unfold validate_spec. now rewrite Hex, Hi.
Qed.

(** The fixture with the extension configured in upper case: the target
    [t.png] is refused, while the walk of the workspace still accepts
    [img/copy.png]. *)
Lemma configured_case_matters_for_the_target_witness :
  runScan_extension
    (mkHost Fixture.root None [["ws"]] (Some [".PNG"]) None Fixture.find) Fixture.target
  = Fatal NotAnImage
  /\ In (EvHash ["ws"; "img"; "copy.png"])
        (events (scanImageFiles
                   (mkHost Fixture.root None [["ws"]] (Some [".PNG"]) None Fixture.find)
                   ["ws"] [".PNG"])).
Proof.
  split.
  - destruct (configured_case_matters_for_the_target
                (mkHost Fixture.root None [["ws"]] (Some [".PNG"]) None Fixture.find)
                Fixture.target) as (_ & H).
    apply H; [|reflexivity].
    intros e [<-|[]]. discriminate.
  - vm_compute. tauto.
Defined.

(* ================================================================== *)
(** ** Scans of several roots and of several patterns *)

(** X10. Scanning is additive, and nothing is merged. The records of the
    search roots of extension.ts are those of the first roots followed by
    those of the next ones, and the records of the patterns of part_000
    those of the first patterns followed by those of the next ones; a file
    that lies under two roots, or that two patterns resolve to, is recorded
    once for each. *)
Theorem scans_concatenate h :
  (forall roots1 roots2 extensions,
      exists records1 records2,
        outcome (Extension.scanRoots h roots1 extensions) = Ok records1
        /\ outcome (Extension.scanRoots h roots2 extensions) = Ok records2
        /\ outcome (Extension.scanRoots h (roots1 ++ roots2) extensions)
           = Ok (records1 ++ records2))
  /\ (forall patterns1 patterns2 workspaceRoot,
         patterns1 <> [] -> patterns2 <> [] ->
         exists records1 records2,
           outcome (Part000.scanImageFilesWithGlob h patterns1 workspaceRoot) = Ok records1
           /\ outcome (Part000.scanImageFilesWithGlob h patterns2 workspaceRoot) = Ok records2
           /\ outcome (Part000.scanImageFilesWithGlob h (patterns1 ++ patterns2) workspaceRoot)
              = Ok (records1 ++ records2)).
Proof.
  split.
  - intros roots1 roots2 extensions. rewrite !scanRoots_run. cbn [outcome snd].
    eexists. eexists. split; [reflexivity|]. split; [reflexivity|].
    now rewrite flat_map_app.
  - intros patterns1 patterns2 workspaceRoot H1 H2.
    assert (H12 : patterns1 ++ patterns2 <> []).
    { destruct patterns1; [contradiction | discriminate]. }
    destruct (scanImageFilesWithGlob_patterns h _ workspaceRoot H1) as (_ & Ho1).
    destruct (scanImageFilesWithGlob_patterns h _ workspaceRoot H2) as (_ & Ho2).
    destruct (scanImageFilesWithGlob_patterns h _ workspaceRoot H12) as (_ & Ho12).
    eexists. eexists. split; [exact Ho1|]. split; [exact Ho2|].
    rewrite Ho12. now rewrite flat_map_app.
Qed.

(** On the fixture: the pattern for [img] after the pattern for every
    [.png]; [img/copy.png] is recorded by both. *)
Lemma scans_concatenate_witness :
  exists records1 records2,
    outcome (Part000.scanImageFilesWithGlob (Fixture.host None) ["**/*.png"] ["ws"])
    = Ok records1
    /\ outcome (Part000.scanImageFilesWithGlob (Fixture.host None) ["img/*"] ["ws"])
       = Ok records2
    /\ outcome (Part000.scanImageFilesWithGlob (Fixture.host None)
                                               (["**/*.png"] ++ ["img/*"]) ["ws"])
       = Ok (records1 ++ records2).
Proof.
  destruct (scans_concatenate (Fixture.host None)) as (_ & H).
  apply H; discriminate.
Defined.

(* ================================================================== *)
(** ** Progress reports, hash attempts and records *)

Lemma accounted_nil : accounted [] [].
Proof. split; [reflexivity | apply perm_nil]. Qed.

Lemma accounted_app t1 p1 t2 p2 :
  accounted t1 p1 -> accounted t2 p2 -> accounted (t1 ++ t2) (p1 ++ p2).
Proof.
  unfold accounted, scanned_reports, hashed, failed_hashes.
  intros (Hr1 & Hh1) (Hr2 & Hh2). rewrite !flat_map_app, !map_app. split.
  - now rewrite Hr1, Hr2.
  - etransitivity; [apply Permutation_app; eassumption|].
    rewrite <- !app_assoc. apply Permutation_app_head.
    rewrite !app_assoc. apply Permutation_app_tail. apply Permutation_app_comm.
Qed.

Lemma accounted_flat_map {A} (E : A -> list event) (P : A -> list ImageInfo) l :
  (forall x, In x l -> accounted (E x) (P x)) ->
  accounted (flat_map E l) (flat_map P l).
Proof.
  induction l as [|x r IH]; intros H; cbn [flat_map]; [apply accounted_nil|].
  apply accounted_app; [apply H; now left | apply IH; intros y Hy; apply H; now right].
Qed.

Lemma hashAndRecord_accounted rootPath fullPath n :
  accounted (events (hashAndRecord rootPath fullPath n))
            (pushed (hashAndRecord rootPath fullPath n)).
Proof.
  rewrite hashAndRecord_events, hashAndRecord_pushed.
  destruct n as [c [|]|es o|]; (split; [reflexivity | cbn; apply Permutation_refl]).
Qed.

Lemma scanDirectory_accounted d :
  forall normalized rootPath dirPath,
    accounted (events (scanDirectory normalized rootPath dirPath d))
              (pushed (scanDirectory normalized rootPath dirPath d)).
Proof.
  induction d as [chunks ok|entries ok IH|] using node_tree_ind;
    intros normalized rootPath dirPath;
    rewrite scanDirectory_events, scanDirectory_pushed;
    try (split; [reflexivity | apply perm_nil]).
  destruct ok; [|split; [reflexivity | apply perm_nil]].
  change (accounted
            ([EvReaddir dirPath]
               ++ flat_map (fun e => events (scanEntry normalized rootPath dirPath e)) entries)
            ([] ++ flat_map (fun e => pushed (scanEntry normalized rootPath dirPath e)) entries)).
  apply accounted_app; [split; [reflexivity | apply perm_nil]|].
  rewrite Forall_forall in IH.
  apply accounted_flat_map. intros [name child] Hin. rewrite scanEntry_eq.
  destruct (skipped name); [apply accounted_nil|].
  destruct child as [c o|es o|]; try apply accounted_nil.
  - destruct (includes _ _); [apply hashAndRecord_accounted | apply accounted_nil].
  - apply (IH _ Hin).
Qed.

Lemma scanGlobPattern_accounted h normalized workspaceRoot pattern :
  accounted (events (Part000.scanGlobPattern h normalized workspaceRoot pattern))
            (pushed (Part000.scanGlobPattern h normalized workspaceRoot pattern)).
Proof.
  rewrite scanGlobPattern_events, scanGlobPattern_pushed.
  destruct (findFiles h pattern _) as [files|];
    [|split; [reflexivity | apply perm_nil]].
  change (accounted
            ([EvFindFiles pattern Part000.nodeModulesExclude]
               ++ flat_map (fun f => events (Part000.scanGlobFile h normalized workspaceRoot f))
                           files)
            ([] ++ flat_map (fun f => pushed (Part000.scanGlobFile h normalized workspaceRoot f))
                            files)).
  apply accounted_app; [split; [reflexivity | apply perm_nil]|].
  apply accounted_flat_map. intros f _. rewrite scanGlobFile_eq.
  destruct (includes _ _); [apply hashAndRecord_accounted | apply accounted_nil].
Qed.

(** X11. Every scan accounts for what it did. In the log of a recursive
    walk and in the log of a glob scan the progress reports are exactly the
    relative paths of the records returned, one per record and in the same
    order, and the files [calculateMD5] was called on are, counted with
    repetition, the recorded files together with the files logged as having
    failed to hash: no file is hashed and then dropped silently. *)
Theorem scans_account_for_every_hash h :
  (forall rootPath extensions images,
      outcome (scanImageFiles h rootPath extensions) = Ok images ->
      accounted (events (scanImageFiles h rootPath extensions)) images)
  /\ (forall globPatterns workspaceRoot images,
         outcome (Part000.scanImageFilesWithGlob h globPatterns workspaceRoot) = Ok images ->
         accounted (events (Part000.scanImageFilesWithGlob h globPatterns workspaceRoot))
                   images).
Proof.
  assert (Hwalk : forall rootPath extensions images,
             outcome (scanImageFiles h rootPath extensions) = Ok images ->
             accounted (events (scanImageFiles h rootPath extensions)) images).
  { intros rootPath extensions images Ho.
    rewrite scanImageFiles_outcome in Ho. injection Ho as <-.
    rewrite scanImageFiles_events. apply scanDirectory_accounted. }
  split; [exact Hwalk|].
  intros globPatterns workspaceRoot images Ho.
  destruct globPatterns as [|g gs].
  - rewrite scanImageFilesWithGlob_empty in *. now apply Hwalk.
  - assert (Hne : g :: gs <> []) by discriminate.
    destruct (scanImageFilesWithGlob_patterns h _ workspaceRoot Hne) as (He & Ho').
    assert (Hi : images
                 = flat_map (fun p => pushed (Part000.scanGlobPattern
                                                h (normalizedExtensions (imageExtensions h))
                                                workspaceRoot p)) (g :: gs))
      by (rewrite Ho' in Ho; congruence).
    rewrite Hi, He.
    apply accounted_flat_map. intros p _. apply scanGlobPattern_accounted.
Qed.

(** On the fixture, where [img/bad.png] fails to hash. *)
Lemma scans_account_for_every_hash_witness :
  exists images,
    outcome (scanImageFiles (Fixture.host None) ["ws"] defaultImageExtensions) = Ok images
    /\ accounted (events (scanImageFiles (Fixture.host None) ["ws"] defaultImageExtensions))
                 images.
Proof.
  eexists. split; [apply scanImageFiles_outcome|].
  destruct (scans_account_for_every_hash (Fixture.host None)) as (H & _).
  apply H. apply scanImageFiles_outcome.
Defined.

(* ================================================================== *)
(** ** The two variants side by side, and scans that find nothing to read *)

Lemma records_under_unreadable h extensions root :
  (forall entries, node_at (fs h) root <> Dir entries true) ->
  records_under h extensions root = []
  /\ events_under h extensions root
     = [EvReaddir root; EvConsoleError (LogScanDirFailed root (ErrReaddir root))].
Proof.
  intros H. unfold records_under, events_under.
  rewrite scanDirectory_pushed, scanDirectory_events.
  destruct (node_at (fs h) root) as [c o|es [|]|]; try (split; reflexivity).
  now destruct (H es).
Qed.

Lemma node_at_missing h root :
  root_exists h root = false -> forall entries, node_at (fs h) root <> Dir entries true.
Proof.
  unfold root_exists, node_at. destruct (lookup (fs h) root); [discriminate|].
  intros _ entries. discriminate.
Qed.

Lemma default_records_agree h workspaceRoot :
  searchPaths h = [] ->
  extension_records h workspaceRoot = part000_records h workspaceRoot.
Proof.
  intros Hsp.
  pose proof (part000_records_ok h workspaceRoot) as Ho.
  rewrite Hsp, scanImageFilesWithGlob_empty, scanImageFiles_outcome in Ho.
  injection Ho as Ho. rewrite <- Ho.
  unfold extension_records. rewrite Hsp. cbn [Extension.searchRoots List.length Nat.ltb
                                              Nat.leb flat_map].
  rewrite app_nil_r. destruct (root_exists h workspaceRoot) eqn:Hex; [reflexivity|].
  symmetry. now apply records_under_unreadable, node_at_missing.
Qed.

(** X12. With no search path configured and a workspace open the two
    variants agree: for every host and every target they end in the same
    outcome, fatal errors included. *)
Theorem variants_agree_without_search_paths h targetPath :
  searchPaths h = [] ->
  workspaceFolders h <> [] ->
  runScan_extension h targetPath = runScan_part000 h targetPath.
Proof.
  intros Hsp Hw. rewrite runScan_extension_cases, runScan_part000_cases.
  unfold validate_spec, validate_target.
  destruct (workspaceFolders h) as [|w ws]; [contradiction|]. cbn [hd].
  destruct (negb (root_exists h targetPath)); [reflexivity|].
  destruct (negb (includes _ _)); [reflexivity|].
  destruct (node_at (fs h) targetPath) as [c [|]|es o|]; try reflexivity.
  now rewrite default_records_agree.
Qed.

(** On the fixture. *)
Lemma variants_agree_without_search_paths_witness :
  runScan_extension (Fixture.host None) Fixture.bad_target
  = runScan_part000 (Fixture.host None) Fixture.bad_target.
Proof.
  apply (variants_agree_without_search_paths (Fixture.host None) Fixture.bad_target).
  - reflexivity.
  - discriminate.
Defined.

(** X13. A workspace root that cannot be read is not an error for the
    user. With no search path configured, when the target is a readable
    image file but the workspace root is missing, is not a directory or
    cannot be read, both variants end in the message that no duplicate was
    found; part_000 logs the failed directory read, extension.ts logs it
    when the root exists and passes over the root without a trace
    otherwise. *)
Theorem unreadable_workspace_reports_none_found
        h targetPath chunks workspaceRoot rest :
  lookup (fs h) targetPath = Some (File chunks true) ->
  includes (toLowerCase (extname_path targetPath)) (imageExtensions h) = true ->
  workspaceFolders h = workspaceRoot :: rest ->
  searchPaths h = [] ->
  (forall entries, node_at (fs h) workspaceRoot <> Dir entries true) ->
  runScan_extension h targetPath = NoneFound
  /\ runScan_part000 h targetPath = NoneFound
  /\ In (EvConsoleError (LogScanDirFailed workspaceRoot (ErrReaddir workspaceRoot)))
        (events (Part000.checkDuplicates h (Some targetPath)))
  /\ events (Extension.checkDuplicates h (Some targetPath))
     = EvExistsSync targetPath :: EvHash targetPath :: EvExistsSync workspaceRoot
       :: (if root_exists h workspaceRoot
           then [EvReaddir workspaceRoot;
                 EvConsoleError (LogScanDirFailed workspaceRoot (ErrReaddir workspaceRoot))]
           else []).
Proof.
  intros Hl Hi Hw Hsp Hbad.
  destruct (validated_target h targetPath chunks Hl Hi) as (Hvt & Hn & Hvs).
  assert (Hw' : workspaceFolders h <> []) by (rewrite Hw; discriminate).
  destruct (records_under_unreadable h (imageExtensions h) workspaceRoot Hbad) as (Hrec & Hev).
  assert (Hp : part000_records h workspaceRoot = []).
  { pose proof (part000_records_ok h workspaceRoot) as Ho.
    rewrite Hsp, scanImageFilesWithGlob_empty, scanImageFiles_outcome in Ho.
    injection Ho as Ho. rewrite <- Ho. exact Hrec. }
  assert (He : extension_records h workspaceRoot = []).
  { rewrite default_records_agree; assumption. }
  split; [|split; [|split]].
  - rewrite runScan_extension_cases, Hvt, Hn, Hw, He. reflexivity.
  - rewrite runScan_part000_cases, (Hvs Hw'), Hn, Hw. cbn [hd]. rewrite Hp. reflexivity.
  - destruct (part000_run_valid h targetPath (Hvs Hw'))
      as (w & r & scanned & images & Hw2 & Hscan & Hrun).
    rewrite Hw in Hw2. injection Hw2 as <- <-.
    rewrite Hsp, scanImageFilesWithGlob_empty, scanImageFiles_run in Hscan.
    injection Hscan as Hs _. rewrite Hev in Hs. subst scanned.
    rewrite Hrun, Hn. cbn. tauto.
  - rewrite (extension_run_valid h targetPath Hvt), Hn, Hw. cbn [events fst].
    unfold extension_scan_events. rewrite Hsp.
    cbn [Extension.searchRoots List.length Nat.ltb Nat.leb flat_map].
    rewrite app_nil_r. destruct (root_exists h workspaceRoot); [now rewrite Hev | reflexivity].
Qed.

(** On the fixture, with the directory [locked] opened as the workspace. *)
Lemma unreadable_workspace_reports_none_found_witness :
  runScan_extension Fixture.host_locked_workspace Fixture.target = NoneFound
  /\ runScan_part000 Fixture.host_locked_workspace Fixture.target = NoneFound.
Proof.
  destruct (unreadable_workspace_reports_none_found
              Fixture.host_locked_workspace Fixture.target [Fixture.bytes "abc"]
              ["ws"; "locked"] []) as (H1 & H2 & _);
    try reflexivity.
  - intros entries. discriminate.
  - now split.
Defined.

Lemma flat_map_ext_in {A B} (f g : A -> list B) (l : list A) :
  (forall x, In x l -> f x = g x) -> flat_map f l = flat_map g l.
Proof.
  induction l as [|x r IH]; intros H; cbn [flat_map]; [reflexivity|].
  rewrite (H x (or_introl eq_refl)), IH; [reflexivity|].
  intros y Hy. apply H. now right.
Qed.

Lemma flat_map_nil {A B} (f : A -> list B) (l : list A) :
  (forall x, In x l -> f x = []) -> flat_map f l = [].
Proof.
  induction l as [|x r IH]; intros H; cbn [flat_map]; [reflexivity|].
  rewrite (H x (or_introl eq_refl)), IH; [reflexivity|].
  intros y Hy. apply H. now right.
Qed.

(** X14. Patterns that cannot be resolved are not an error for the user
    either. In part_000, when the target is a readable image file, a
    workspace is open and [findFiles] rejects every configured pattern, the
    run ends in the message that no duplicate was found; each pattern is
    tried once, in order, and logged, and no file but the target is
    hashed. *)
Theorem rejected_patterns_report_none_found h targetPath chunks workspaceRoot rest :
  lookup (fs h) targetPath = Some (File chunks true) ->
  includes (toLowerCase (extname_path targetPath)) (imageExtensions h) = true ->
  workspaceFolders h = workspaceRoot :: rest ->
  searchPaths h <> [] ->
  (forall pattern, In pattern (searchPaths h) ->
                   findFiles h pattern Part000.nodeModulesExclude = None) ->
  runScan_part000 h targetPath = NoneFound
  /\ events (Part000.checkDuplicates h (Some targetPath))
     = [EvExistsSync targetPath; EvReport PHashing; EvHash targetPath; EvReport PScanning]
       ++ flat_map (fun p => [EvFindFiles p Part000.nodeModulesExclude;
                              EvConsoleError (LogPatternFailed p (ErrFindFiles p))])
                   (searchPaths h)
       ++ [EvReport PMatching].
Proof.
  intros Hl Hi Hw Hne Hrej.
  destruct (validated_target h targetPath chunks Hl Hi) as (_ & Hn & Hvs).
  assert (Hw' : workspaceFolders h <> []) by (rewrite Hw; discriminate).
  destruct (scanImageFilesWithGlob_patterns h _ workspaceRoot Hne) as (He & Ho).
  rewrite (flat_map_ext_in _
             (fun p => [EvFindFiles p Part000.nodeModulesExclude;
                        EvConsoleError (LogPatternFailed p (ErrFindFiles p))])) in He.
  2:{ intros p Hp. rewrite scanGlobPattern_events. now rewrite (Hrej p Hp). }
  rewrite flat_map_nil in Ho.
  2:{ intros p Hp. rewrite scanGlobPattern_pushed. now rewrite (Hrej p Hp). }
  split.
  - rewrite runScan_part000_cases, (Hvs Hw'), Hn, Hw. cbn [hd].
    unfold part000_records. now rewrite Ho.
  - destruct (part000_run_valid h targetPath (Hvs Hw'))
      as (w & r & scanned & images & Hw2 & Hscan & Hrun).
    rewrite Hw in Hw2. injection Hw2 as <- <-.
    rewrite Hrun, Hn. cbn [events fst app].
    unfold events in He. rewrite Hscan in He. cbn [fst] in He. now rewrite He.
Qed.

(** On the fixture, with a malformed pattern configured twice. *)
Lemma rejected_patterns_report_none_found_witness :
  runScan_part000 Fixture.host_bad_patterns Fixture.target = NoneFound.
Proof.
  destruct (rejected_patterns_report_none_found
              Fixture.host_bad_patterns Fixture.target [Fixture.bytes "abc"] ["ws"] [])
    as (H & _);
    [reflexivity | reflexivity | reflexivity | discriminate | | exact H].
  intros pattern [<-|[<-|[]]]; reflexivity.
Defined.

(* ================================================================== *)
(** ** What every record satisfies *)

(** X15. Every record a scan returns is well formed: its fingerprint is 32
    hexadecimal digits and the extension of its path, in lower case, is
    among the configured extensions put in lower case. This holds for the
    recursive walk and for the glob scan alike. *)
Theorem records_are_well_formed h :
  (forall rootPath extensions images img,
      outcome (scanImageFiles h rootPath extensions) = Ok images ->
      In img images ->
      String.length (md5 img) = 32
      /\ forallb is_hex_digit (list_ascii_of_string (md5 img)) = true
      /\ In (toLowerCase (extname_path (filePath img))) (normalizedExtensions extensions))
  /\ (forall globPatterns workspaceRoot images img,
         outcome (Part000.scanImageFilesWithGlob h globPatterns workspaceRoot) = Ok images ->
         In img images ->
         String.length (md5 img) = 32
         /\ forallb is_hex_digit (list_ascii_of_string (md5 img)) = true
         /\ In (toLowerCase (extname_path (filePath img)))
               (normalizedExtensions (imageExtensions h))).
Proof.
  assert (Hwalk : forall rootPath extensions images img,
             outcome (scanImageFiles h rootPath extensions) = Ok images ->
             In img images ->
             String.length (md5 img) = 32
             /\ forallb is_hex_digit (list_ascii_of_string (md5 img)) = true
             /\ In (toLowerCase (extname_path (filePath img)))
                   (normalizedExtensions extensions)).
  { intros rootPath extensions images img Ho Hin.
    rewrite scanImageFiles_outcome in Ho. injection Ho as <-.
    apply scanDirectory_records in Hin. destruct Hin as (rel & c & -> & _ & Hi).
    cbn [md5 filePath]. split; [apply hexdigest_length|].
    split; [unfold MD5.hexdigest; apply hex_is_hex | now apply includes_In]. }
  split; [exact Hwalk|].
  intros globPatterns workspaceRoot images img Ho Hin.
  destruct globPatterns as [|g gs].
  - rewrite scanImageFilesWithGlob_empty in Ho. now apply (Hwalk workspaceRoot _ images).
  - assert (Hne : g :: gs <> []) by discriminate.
    apply (glob_records h _ workspaceRoot _ img Hne Ho) in Hin.
    destruct Hin as (pattern & files & c & _ & _ & _ & Hi & _ & Heq).
    rewrite Heq at 1 2. cbn [md5]. split; [apply hexdigest_length|].
    split; [unfold MD5.hexdigest; apply hex_is_hex | now apply includes_In].
Qed.

(** On the fixture. *)
Lemma records_are_well_formed_witness :
  String.length
    (md5 (mkImageInfo ["ws"; "img"; "copy.png"] "900150983cd24fb0d6963f7d28e17f72"
                      ["img"; "copy.png"])) = 32.
Proof.
  destruct (records_are_well_formed (Fixture.host None)) as (H & _).
  eapply (H ["ws"] defaultImageExtensions).
  - vm_compute. reflexivity.
  - simpl. tauto.
Defined.

(* ================================================================== *)
(** ** The target is hashed on its own *)

Lemma hashed_In t p : In p (hashed t) <-> In (EvHash p) t.
Proof.
  unfold hashed. rewrite in_flat_map. split.
  - intros (e & Hin & H). destruct e as [q|q|q|a b|m|m]; try contradiction.
    destruct H as [<-|[]]. exact Hin.
  - intros H. exists (EvHash p). split; [exact H | now left].
Qed.

(** X16. The hash of the target is not taken from the scan. In a run of
    extension.ts that reaches the scan, the target is hashed first and on
    its own, and when the walk of a search root reaches the target it is
    hashed a second time. *)
Theorem target_is_hashed_again_by_the_walk
        h workspaceRoot rest root rel chunks :
  lookup (fs h) (root ++ rel) = Some (File chunks true) ->
  includes (toLowerCase (extname_path (root ++ rel))) (imageExtensions h) = true ->
  workspaceFolders h = workspaceRoot :: rest ->
  In root (Extension.searchRoots workspaceRoot (searchPaths h)) ->
  reaches (node_at (fs h) root) rel (File chunks true) ->
  exists later,
    hashed (events (Extension.checkDuplicates h (Some (root ++ rel))))
    = (root ++ rel) :: later
    /\ In (root ++ rel) later.
Proof.
  intros Hl Hi Hw Hroot Hr.
  destruct (validated_target h (root ++ rel) chunks Hl Hi) as (Hvt & Hn & _).
  assert (He : events (Extension.checkDuplicates h (Some (root ++ rel)))
               = EvExistsSync (root ++ rel) :: EvHash (root ++ rel)
                   :: extension_scan_events h workspaceRoot).
  { change (Some (root ++ rel)) with (@Some path (root ++ rel)).
    rewrite (extension_run_valid h (root ++ rel) Hvt), Hn, Hw. reflexivity. }
  exists (hashed (extension_scan_events h workspaceRoot)).
  split; [now rewrite He|].
  apply hashed_In. unfold extension_scan_events. apply in_flat_map.
  exists root. split; [exact Hroot|]. right.
  rewrite (reaches_root_exists h root rel _ Hr).
  unfold events_under. apply scanDirectory_hashes. exists rel, chunks, true.
  repeat split; [exact Hr|]. now apply validated_extension_is_accepted.
Qed.

(** On the fixture: [img/other.png] as the target. *)
Lemma target_is_hashed_again_by_the_walk_witness :
  exists later,
    hashed (events (Extension.checkDuplicates (Fixture.host None)
                                              (Some (["ws"] ++ ["img"; "other.png"]))))
    = (["ws"] ++ ["img"; "other.png"]) :: later
    /\ In (["ws"] ++ ["img"; "other.png"]) later.
Proof.
  apply (target_is_hashed_again_by_the_walk
           (Fixture.host None) ["ws"] [] ["ws"] ["img"; "other.png"] [Fixture.bytes "xyz"]);
    try reflexivity.
  - simpl. tauto.
  - apply fixture_reaches_other.
Defined.
